(** * Session broker and stateless tool server: a shallow embedding

    The development follows two source files of the repository:

    - [mcp-server/dist/server.js]: the duplex (Socket.IO) transport with its
      table of active sessions and the [create-session], [join-session],
      [screen-data], [request-ocr] and [disconnect] handlers;
    - [mcp-server/src/vygil-mcp-server.ts]: the stateless tool server with its
      [MetricsCollector] and the tools [screen_capture], [extract_text] and
      [log_activity].

    JavaScript strings are sequences of UTF-16 code units, objects sent over
    the wire are JSON values, handlers are computations that thread a state,
    write a trace of observable actions and may throw. *)

From Stdlib Require Import NArith ZArith QArith Lia List String Ascii DecimalString.
From Stdlib Require DecimalZ DecimalPos.
From stdpp Require Import base decidable option list gmap.
Import ListNotations.

Close Scope Q_scope.
Local Open Scope nat_scope.

(** ** JavaScript strings *)

Module Js.

(** A string is its sequence of UTF-16 code units. *)
Abbreviation jsstring := (list N).

(** A literal of the source, given by its (ASCII) characters. *)
Definition js (s : string) : jsstring :=
  map N_of_ascii (list_ascii_of_string s).

(** ECMAScript [WhiteSpace] and [LineTerminator] code points: the set that
    [String.prototype.trim] strips and that [\s] matches. *)
Definition isWhiteSpace (c : N) : bool :=
  ((9 <=? c) && (c <=? 13)               (* TAB, LF, VT, FF, CR *)
   || (c =? 32) || (c =? 160)            (* SP, NBSP *)
   || (c =? 5760)                        (* U+1680 *)
   || ((8192 <=? c) && (c <=? 8202))     (* U+2000 .. U+200A *)
   || (c =? 8232) || (c =? 8233)         (* U+2028, U+2029 *)
   || (c =? 8239) || (c =? 8287)         (* U+202F, U+205F *)
   || (c =? 12288) || (c =? 65279))%N.   (* U+3000, U+FEFF *)

(** [!s]: the empty string is the only falsy string. *)
Definition truthy_string (s : jsstring) : bool :=
  match s with [] => false | _ :: _ => true end.

(** [s.includes(',')] for a one-character needle. *)
Definition includes_char (sep : N) (s : jsstring) : bool :=
  existsb (fun c => (c =? sep)%N) s.

(** [s.split(sep)] for a one-character string separator; the result is
    never empty, and [''.split(',')] is [['']]. *)
Fixpoint split_char (sep : N) (s : jsstring) : list jsstring :=
  match s with
  | [] => [[]]
  | c :: r =>
      if (c =? sep)%N then [] :: split_char sep r
      else match split_char sep r with
           | t :: ts => (c :: t) :: ts
           | [] => [[c]]
           end
  end.

Definition comma : N := 44.

Fixpoint trimStart (s : jsstring) : jsstring :=
  match s with
  | [] => []
  | c :: r => if isWhiteSpace c then trimStart r else s
  end.

Definition trimEnd (s : jsstring) : jsstring := rev (trimStart (rev s)).

(** [s.trim()] *)
Definition trim (s : jsstring) : jsstring := trimEnd (trimStart s).

(** [s.split(/\s+/)]: the separator is a maximal run of white space
    ([in_ws] tells that the scan is inside such a run). A run at either
    end of [s] leaves an empty token there. *)
Fixpoint split_ws_aux (in_ws : bool) (s : jsstring) : list jsstring :=
  match s with
  | [] => [[]]
  | c :: r =>
      if isWhiteSpace c then
        if in_ws then split_ws_aux true r else [] :: split_ws_aux true r
      else match split_ws_aux false r with
           | t :: ts => (c :: t) :: ts
           | [] => [[c]]
           end
  end.

Definition split_ws (s : jsstring) : list jsstring := split_ws_aux false s.

End Js.
Export Js.

(** ** Values on the wire, observable actions, thrown values *)

(** A JavaScript value as the handlers see it. Numbers that are time stamps
    or lengths are carried as rationals like every other number. *)
#[warnings="-register-all"]
Inductive json : Type :=
| JUndefined
| JNull
| JBool (b : bool)
| JNum (q : Q)
| JStr (s : jsstring)
| JObj (fields : list (jsstring * json)).

(** Property read on an object literal: the first field of that name. *)
Fixpoint field (k : jsstring) (fs : list (jsstring * json)) : option json :=
  match fs with
  | [] => None
  | (k', v) :: r => if decide (k' = k) then Some v else field k r
  end.

Definition has_field (k : jsstring) (v : json) : bool :=
  match v with
  | JObj fs => match field k fs with Some _ => true | None => false end
  | _ => false
  end.

Definition get_field (k : jsstring) (v : json) : json :=
  match v with
  | JObj fs => match field k fs with Some x => x | None => JUndefined end
  | _ => JUndefined
  end.

(** What a [throw] or a rejected promise carries: an [Error] with its
    message, or any other value. *)
Inductive thrown : Type :=
| ThrowError (message : jsstring)
| ThrowOther (v : json).

(** [error instanceof Error ? error.message : fallback] *)
Definition message_or (fallback : jsstring) (e : thrown) : jsstring :=
  match e with
  | ThrowError m => m
  | ThrowOther _ => fallback
  end.

(** The recognition engine's answer, [result.data]. *)
Record ocr_data : Type := {
  text : jsstring;
  confidence : Q
}.

(** The collaborators that the two servers call: [Buffer.from(s, 'base64')],
    which returns a buffer for every string, and [Tesseract.recognize], whose
    promise resolves or rejects. *)
Record engine : Type := {
  Buffer_from_base64 : jsstring -> list N;
  recognize : list N -> thrown + ocr_data
}.

(** Addressees of an emit. *)
Inductive target : Type :=
| ToSocket (c : jsstring)                  (* socket.emit(...) *)
| ToRoom (r : jsstring)                    (* io.to(r).emit(...) *)
| ToRoomExcept (r : jsstring) (c : jsstring). (* socket.to(r).emit(...) *)

(** Observable actions of a handler, in program order. *)
Inductive action : Type :=
| Emit (tg : target) (event : jsstring) (payload : json)
| Recognize (buffer : list N)              (* the engine is invoked *)
| Delete (sessionId : jsstring).           (* delete activeSessions[sessionId] *)

(** ** Computations: state, trace, exceptions *)

Section Computation.
Context {S : Type}.

(** A computation runs from a state to a state, appends to the trace and
    either throws or returns. State changes and actions made before a
    [throw] stay. *)
Definition comp (A : Type) : Type := S -> S * list action * (thrown + A).

Definition ret {A} (a : A) : comp A := fun s => (s, [], inr a).

Definition bind {A B} (m : comp A) (k : A -> comp B) : comp B :=
  fun s =>
    match m s with
    | (s1, tr1, inl e) => (s1, tr1, inl e)
    | (s1, tr1, inr a) =>
        match k a s1 with
        | (s2, tr2, r) => (s2, tr1 ++ tr2, r)
        end
    end.

Definition throw {A} (e : thrown) : comp A := fun s => (s, [], inl e).

(** [try { m } catch (error) { h error }] *)
Definition try_catch {A} (m : comp A) (h : thrown -> comp A) : comp A :=
  fun s =>
    match m s with
    | (s1, tr1, inl e) =>
        match h e s1 with
        | (s2, tr2, r) => (s2, tr1 ++ tr2, r)
        end
    | r => r
    end.

Definition act (a : action) : comp unit := fun s => (s, [a], inr tt).

Definition get : comp S := fun s => (s, [], inr s).

Definition modify (f : S -> S) : comp unit := fun s => (f s, [], inr tt).

(** [await Tesseract.recognize(buffer, ...)]: the call is recorded in the
    trace, and the handler goes on with the answer or with the rejection.
    The handler is run to its end in one piece; what other sockets do while
    the engine works is not part of a computation. *)
Definition await_recognize (E : engine) (buffer : list N) : comp ocr_data :=
  fun s =>
    match recognize E buffer with
    | inl e => (s, [Recognize buffer], inl e)
    | inr d => (s, [Recognize buffer], inr d)
    end.

Definition state_of {A} (r : S * list action * (thrown + A)) : S := fst (fst r).
Definition trace_of {A} (r : S * list action * (thrown + A)) : list action :=
  snd (fst r).
Definition outcome_of {A} (r : S * list action * (thrown + A)) : thrown + A :=
  snd r.
End Computation.

Arguments comp : clear implicits.

Declare Scope comp_scope.
Delimit Scope comp_scope with comp.
Notation "x <- m ;; k" := (bind m (fun x => k))
  (at level 100, m at next level, right associativity) : comp_scope.
Notation "m ;;; k" := (bind m (fun _ => k))
  (at level 100, right associativity) : comp_scope.

(** ** The duplex transport: [mcp-server/dist/server.js] *)

Module Broker.

Record session : Type := {
  id : jsstring;
  host : jsstring;
  viewers : list jsstring;
  startTime : Z
}.

(** [activeSessions] is a plain object used as a table: its own properties
    in insertion order, which is the order of [for ... in] for the keys that
    [create-session] stores (a UUID is not an array index). [rooms] is the
    Socket.IO adapter's table from room name to the set of socket ids in
    the room. *)
Record state : Type := {
  activeSessions : list (jsstring * session);
  rooms : gmap (list N) (gset (list N))
}.

Definition initial : state := {| activeSessions := []; rooms := ∅ |}.

(** The own property [k] of [activeSessions], when there is one. *)
Fixpoint lookup_session (k : jsstring) (tbl : list (jsstring * session))
  : option session :=
  match tbl with
  | [] => None
  | (k', s) :: r => if decide (k' = k) then Some s else lookup_session k r
  end.

(** [activeSessions[sessionId] = s]: an existing property keeps its place,
    a new one goes last. *)
Fixpoint set_session (k : jsstring) (s : session)
    (tbl : list (jsstring * session)) : list (jsstring * session) :=
  match tbl with
  | [] => [(k, s)]
  | (k', s') :: r =>
      if decide (k' = k) then (k', s) :: r else (k', s') :: set_session k s r
  end.

(** The names that every plain object inherits from [Object.prototype].
    Their values are functions, or [Object.prototype] itself for
    [__proto__]: truthy values without a [viewers] property. *)
Definition object_prototype_keys : list jsstring :=
  [js "constructor"; js "__defineGetter__"; js "__defineSetter__";
   js "hasOwnProperty"; js "__lookupGetter__"; js "__lookupSetter__";
   js "isPrototypeOf"; js "propertyIsEnumerable"; js "toString"; js "valueOf";
   js "__proto__"; js "toLocaleString"].

(** What the expression [activeSessions[sessionId]] evaluates to. *)
Inductive looked_up : Type :=
| Session (s : session)   (* an own property: a session of the table *)
| Inherited               (* a member of [Object.prototype] *)
| Missing.                (* [undefined] *)

(** [activeSessions[sessionId]]: [activeSessions] is created as [{}], so a
    name that is not an own property is looked up in [Object.prototype]. *)
Definition read_session (k : jsstring) (tbl : list (jsstring * session)) : looked_up :=
  match lookup_session k tbl with
  | Some s => Session s
  | None => if bool_decide (k ∈ object_prototype_keys) then Inherited else Missing
  end.

(** [delete activeSessions[sessionId]] *)
Definition delete_session (k : jsstring) (tbl : list (jsstring * session))
  : list (jsstring * session) :=
  filter (λ e, e.1 ≠ k) tbl.

(** A write through the session object that the table holds under [k]. *)
Definition update_session (k : jsstring) (f : session -> session)
    (tbl : list (jsstring * session)) : list (jsstring * session) :=
  map (λ e, if decide (e.1 = k) then (e.1, f e.2) else e) tbl.

Definition with_table (f : list (jsstring * session) -> list (jsstring * session))
    (st : state) : state :=
  {| activeSessions := f (activeSessions st); rooms := rooms st |}.

Definition with_viewers (vs : list jsstring) (s : session) : session :=
  {| id := id s; host := host s; viewers := vs; startTime := startTime s |}.

(** [session.viewers.push(c)] *)
Definition push_viewer (c : jsstring) (s : session) : session :=
  with_viewers (viewers s ++ [c]) s.

(** [session.viewers.includes(c)] *)
Definition includes (c : jsstring) (vs : list jsstring) : bool :=
  bool_decide (c ∈ vs).

(** The members of a room; a room that does not exist has none. *)
Definition members (r : jsstring) (st : state) : gset (list N) :=
  default ∅ (rooms st !! r).

(** [socket.join(r)] for the socket [c] *)
Definition join_room (c r : jsstring) (st : state) : state :=
  {| activeSessions := activeSessions st;
     rooms := <[r := {[c]} ∪ members r st]> (rooms st) |}.

(** What Socket.IO does to a closing socket before it fires [disconnect]:
    the socket leaves every room. *)
Definition leave_all (c : jsstring) (st : state) : state :=
  {| activeSessions := activeSessions st;
     rooms := (λ ms, ms ∖ {[c]}) <$> rooms st |}.

(** The sockets that an emit reaches. *)
Definition recipients (st : state) (tg : target) : gset (list N) :=
  match tg with
  | ToSocket c => {[c]}
  | ToRoom r => members r st
  | ToRoomExcept r c => members r st ∖ {[c]}
  end.

Local Open Scope comp_scope.

(** The object [{ message: msg }]. *)
Definition message_payload (msg : string) : json :=
  JObj [(js "message", JStr (js msg))].

(** [socket.on('create-session', ...)]; [sessionId] is what [uuidv4()]
    returns and [now] what [Date.now()] returns. A UUID is never
    [__proto__], the one name whose assignment creates no own property, so
    that the assignment stores an own property. *)
Definition on_create_session (c sessionId : jsstring) (now : Z) : comp state unit :=
  modify (with_table (set_session sessionId
    {| id := sessionId; host := c; viewers := []; startTime := now |})) ;;;
  modify (join_room c sessionId) ;;;
  act (Emit (ToSocket c) (js "session-created")
         (JObj [(js "sessionId", JStr sessionId)])).

(** [socket.on('join-session', ...)]. The handler has no [try]: what
    [session.viewers.push] throws leaves the handler, with the state as it
    is at the throw. *)
Definition on_join_session (c sessionId : jsstring) : comp state unit :=
  st <- get ;;
  match read_session sessionId (activeSessions st) with
  | Missing => act (Emit (ToSocket c) (js "error") (message_payload "Session not found"))
  | Inherited =>
      (* [session.viewers] is [undefined] *)
      throw (ThrowError (js "Cannot read properties of undefined (reading 'push')"))
  | Session session =>
      modify (with_table (update_session sessionId (push_viewer c))) ;;;
      modify (join_room c sessionId) ;;;
      act (Emit (ToSocket c) (js "session-joined")
             (JObj [(js "sessionId", JStr sessionId)])) ;;;
      act (Emit (ToRoom (host session)) (js "viewer-joined")
             (JObj [(js "viewerId", JStr c)]))
  end.

(** [chunk.data]: reading a property of [undefined] or [null] throws. *)
Definition read_data (chunk : json) : comp state json :=
  match chunk with
  | JUndefined =>
      throw (ThrowError (js "Cannot read properties of undefined (reading 'data')"))
  | JNull =>
      throw (ThrowError (js "Cannot read properties of null (reading 'data')"))
  | _ => ret (get_field (js "data") chunk)
  end.

(** [parts.length > 1 ? parts[1] : parts[0]] for [parts = data.split(',')] *)
Definition screen_image_data (data : jsstring) : jsstring :=
  let parts := split_char comma data in
  if 1 <? length parts then nth 1 parts [] else nth 0 parts [].

Definition ocr_result (sessionId : jsstring) (now : Z) (t : jsstring) : json :=
  JObj [(js "sessionId", JStr sessionId);
        (js "timestamp", JNum (inject_Z now));
        (js "text", JStr t)].

(** [socket.on('screen-data', ...)] *)
Definition on_screen_data (E : engine) (c sessionId : jsstring) (chunk : json)
    (now : Z) : comp state unit :=
  st <- get ;;
  match read_session sessionId (activeSessions st) with
  | Missing => act (Emit (ToSocket c) (js "error") (message_payload "Session not found"))
  | Session _ | Inherited =>
      try_catch
        (act (Emit (ToRoomExcept sessionId c) (js "screen-data")
                (JObj [(js "chunk", chunk)])) ;;;
         data <- read_data chunk ;;
         match data with
         | JStr ((_ :: _) as d) =>
             let imageData := screen_image_data d in
             if truthy_string imageData then
               let imageBuffer := Buffer_from_base64 E imageData in
               result <- await_recognize E imageBuffer ;;
               let extractedText := text result in
               act (Emit (ToSocket c) (js "ocr-result")
                      (ocr_result sessionId now extractedText))
             else
               act (Emit (ToSocket c) (js "error") (message_payload "Invalid image data"))
         | _ => ret tt
         end)
        (λ error,
           act (Emit (ToSocket c) (js "error") (message_payload "Failed to process OCR")))
  end.

(** [imageData.split(',')[1]]; [split] exists on strings only, the call
    throws a [TypeError] on every other value. *)
Definition request_base64Data (imageData : json) : comp state (option jsstring) :=
  match imageData with
  | JStr d => ret (nth_error (split_char comma d) 1)
  | _ => throw (ThrowError (js "imageData.split is not a function"))
  end.

(** [socket.on('request-ocr', ...)] *)
Definition on_request_ocr (E : engine) (c sessionId : jsstring) (imageData : json)
    (now : Z) : comp state unit :=
  st <- get ;;
  match read_session sessionId (activeSessions st) with
  | Missing => act (Emit (ToSocket c) (js "error") (message_payload "Session not found"))
  | Session _ | Inherited =>
      try_catch
        (base64Data <- request_base64Data imageData ;;
         match base64Data with
         | Some ((_ :: _) as b) =>
             let imageBuffer := Buffer_from_base64 E b in
             result <- await_recognize E imageBuffer ;;
             let extractedText := text result in
             act (Emit (ToSocket c) (js "ocr-result")
                    (ocr_result sessionId now extractedText))
         | _ => act (Emit (ToSocket c) (js "error") (message_payload "Invalid image data"))
         end)
        (λ error,
           act (Emit (ToSocket c) (js "error") (message_payload "Failed to perform OCR")))
  end.

(** The body of the [for (const sessionId in activeSessions)] loop. The
    loop visits own properties only (those of [Object.prototype] are not
    enumerable), so that [activeSessions[sessionId]] is an own property. *)
Definition disconnect_body (c sessionId : jsstring) : comp state unit :=
  st <- get ;;
  match lookup_session sessionId (activeSessions st) with
  | Some session =>
      if decide (host session = c) then
        act (Emit (ToRoom sessionId) (js "session-ended")
               (message_payload "Host has disconnected")) ;;;
        modify (with_table (delete_session sessionId)) ;;;
        act (Delete sessionId)
      else if includes c (viewers session) then
        modify (with_table (update_session sessionId
          (λ s, with_viewers (filter (λ v, v ≠ c) (viewers s)) s))) ;;;
        act (Emit (ToRoom (host session)) (js "viewer-left")
               (JObj [(js "viewerId", JStr c)]))
      else ret tt
  | None => ret tt
  end.

Fixpoint disconnect_loop (c : jsstring) (keys : list jsstring) : comp state unit :=
  match keys with
  | [] => ret tt
  | sessionId :: rest => disconnect_body c sessionId ;;; disconnect_loop c rest
  end.

(** [socket.on('disconnect', ...)]: the loop visits the properties that the
    table has when the loop starts and that are still there when their turn
    comes. *)
Definition on_disconnect (c : jsstring) : comp state unit :=
  st <- get ;;
  disconnect_loop c (map fst (activeSessions st)).

(** A socket closes: Socket.IO empties its rooms, then runs the handler. *)
Definition disconnect (c : jsstring) : comp state unit :=
  modify (leave_all c) ;;; on_disconnect c.

(** A socket connects: Socket.IO puts it in the room named by its id. *)
Definition connect (c : jsstring) : comp state unit :=
  modify (join_room c c).

End Broker.

(** ** The stateless tool server: [mcp-server/src/vygil-mcp-server.ts] *)

Module Tools.

(** The [metrics] object of [MetricsCollector]. The counters start at zero
    and only [increment] writes them, so they hold natural numbers. *)
Record metrics : Type := {
  requests : N;
  errors : N;
  screenCaptures : N;
  ocrRequests : N;
  activityLogs : N;
  uptime : Z;
  lastRequest : option Z
}.

(** [keyof typeof this.metrics] *)
Inductive metric_key : Type :=
| Requests | Errors | ScreenCaptures | OcrRequests | ActivityLogs
| Uptime | LastRequest.

(** [new MetricsCollector()] in a process started at [t]. *)
Definition fresh (t : Z) : metrics :=
  {| requests := 0; errors := 0; screenCaptures := 0; ocrRequests := 0;
     activityLogs := 0; uptime := t; lastRequest := None |}.

(** [increment(metric)]: [++] on the property when it holds a number;
    [lastRequest] holds [null] or a [Date] and stays as it is. *)
Definition increment (k : metric_key) (m : metrics) : metrics :=
  match k with
  | Requests =>
      {| requests := requests m + 1; errors := errors m;
         screenCaptures := screenCaptures m; ocrRequests := ocrRequests m;
         activityLogs := activityLogs m; uptime := uptime m;
         lastRequest := lastRequest m |}
  | Errors =>
      {| requests := requests m; errors := errors m + 1;
         screenCaptures := screenCaptures m; ocrRequests := ocrRequests m;
         activityLogs := activityLogs m; uptime := uptime m;
         lastRequest := lastRequest m |}
  | ScreenCaptures =>
      {| requests := requests m; errors := errors m;
         screenCaptures := screenCaptures m + 1; ocrRequests := ocrRequests m;
         activityLogs := activityLogs m; uptime := uptime m;
         lastRequest := lastRequest m |}
  | OcrRequests =>
      {| requests := requests m; errors := errors m;
         screenCaptures := screenCaptures m; ocrRequests := ocrRequests m + 1;
         activityLogs := activityLogs m; uptime := uptime m;
         lastRequest := lastRequest m |}
  | ActivityLogs =>
      {| requests := requests m; errors := errors m;
         screenCaptures := screenCaptures m; ocrRequests := ocrRequests m;
         activityLogs := activityLogs m + 1; uptime := uptime m;
         lastRequest := lastRequest m |}
  | Uptime =>
      {| requests := requests m; errors := errors m;
         screenCaptures := screenCaptures m; ocrRequests := ocrRequests m;
         activityLogs := activityLogs m; uptime := (uptime m + 1)%Z;
         lastRequest := lastRequest m |}
  | LastRequest => m
  end.

(** [updateLastRequest()], with [t] the time that [new Date()] reads. *)
Definition updateLastRequest (t : Z) (m : metrics) : metrics :=
  {| requests := requests m; errors := errors m;
     screenCaptures := screenCaptures m; ocrRequests := ocrRequests m;
     activityLogs := activityLogs m; uptime := uptime m;
     lastRequest := Some t |}.

(** What one invocation reads from the clock: [Date.now()] on entry, the
    [new Date()] of [updateLastRequest], [Date.now()] when the work is done,
    and the string [new Date().toISOString()] put in the envelope. *)
Record clock : Type := {
  t_start : Z;
  t_request : Z;
  t_done : Z;
  iso : jsstring
}.

Local Open Scope comp_scope.

Definition num_Z (z : Z) : json := JNum (inject_Z z).
Definition num_nat (n : nat) : json := JNum (inject_Z (Z.of_nat n)).

(** The object given to [JSON.stringify] in a [catch] block. *)
Definition failure_envelope (fallback : string) (clk : clock) (error : thrown) : json :=
  JObj [(js "success", JBool false);
        (js "error", JStr (message_or (js fallback) error));
        (js "timestamp", JStr (iso clk))].

(** Tool [screen_capture]. A tool returns
    [{content: [{type: "text", text: JSON.stringify(envelope)}]}]; the
    computation returns [envelope]. *)
Definition screen_capture (clk : clock) : comp metrics json :=
  let startTime := t_start clk in
  modify (increment Requests) ;;;
  modify (increment ScreenCaptures) ;;;
  modify (updateLastRequest (t_request clk)) ;;;
  try_catch
    (let mockImageData := js "mock_base64_image_data" in
     let processingTime := (t_done clk - startTime)%Z in
     ret (JObj [(js "success", JBool true);
                (js "imageData", JStr mockImageData);
                (js "timestamp", JStr (iso clk));
                (js "processingTime", num_Z processingTime);
                (js "metadata",
                  JObj [(js "width", num_Z 1920);
                        (js "height", num_Z 1080);
                        (js "format", JStr (js "png"))])]))
    (λ error,
       modify (increment Errors) ;;;
       ret (failure_envelope "Screen capture failed" clk error)).

(** The payload that [extract_text] decodes: [parts[1] || ''] of
    [imageData.split(',')] when [imageData] has a comma, else [imageData]. *)
Definition base64Data_of (imageData : jsstring) : jsstring :=
  if includes_char comma imageData then
    match nth_error (split_char comma imageData) 1 with
    | Some ((_ :: _) as p) => p
    | _ => []
    end
  else imageData.

Definition invalid_image_data : jsstring :=
  js "Invalid image data format. Expected base64 string or data URL.".

(** [extractedText.split(/\s+/).filter(word => word.length > 0).length] *)
Definition wordCount (extractedText : jsstring) : nat :=
  length (filter (λ word, 0 < length word) (split_ws extractedText)).

(** Tool [extract_text] *)
Definition extract_text (E : engine) (clk : clock) (imageData : jsstring)
  : comp metrics json :=
  let startTime := t_start clk in
  modify (increment Requests) ;;;
  modify (increment OcrRequests) ;;;
  modify (updateLastRequest (t_request clk)) ;;;
  try_catch
    (let base64Data := base64Data_of imageData in
     if negb (truthy_string base64Data) then throw (ThrowError invalid_image_data)
     else
       let imageBuffer := Buffer_from_base64 E base64Data in
       result <- await_recognize E imageBuffer ;;
       let extractedText := trim (text result) in
       let confidence := (confidence result / 100)%Q in
       let processingTime := (t_done clk - startTime)%Z in
       ret (JObj [(js "success", JBool true);
                  (js "text", JStr extractedText);
                  (js "confidence", JNum confidence);
                  (js "processingTime", num_Z processingTime);
                  (js "timestamp", JStr (iso clk));
                  (js "metadata",
                    JObj [(js "textLength", num_nat (length extractedText));
                          (js "wordCount", num_nat (wordCount extractedText))])]))
    (λ error,
       modify (increment Errors) ;;;
       ret (failure_envelope "OCR processing failed" clk error)).

(** [`activity_${Date.now()}`] *)
Definition activity_id (now : Z) : jsstring :=
  js "activity_" ++ js (NilZero.string_of_int (Z.to_int now)).

(** Tool [log_activity]; an optional argument that is left out is
    [undefined] and takes the default of the parameter list. *)
Definition log_activity (clk : clock) (description : jsstring)
    (confidence screen_text_length processing_time : option Q)
  : comp metrics json :=
  let confidence := default 0%Q confidence in
  let screen_text_length := default 0%Q screen_text_length in
  let processing_time := default 0%Q processing_time in
  modify (increment Requests) ;;;
  modify (increment ActivityLogs) ;;;
  modify (updateLastRequest (t_request clk)) ;;;
  let logEntry :=
    [(js "timestamp", JStr (iso clk));
     (js "description", JStr description);
     (js "confidence", JNum confidence);
     (js "screen_text_length", JNum screen_text_length);
     (js "processing_time", JNum processing_time);
     (js "id", JStr (activity_id (t_done clk)))] in
  ret (JObj [(js "success", JBool true);
             (js "logged_at", JStr (iso clk));
             (js "activity_id", JStr (activity_id (t_done clk)));
             (js "entry", JObj logEntry)]).

(** One call of a tool with an input that passed its schema. *)
Inductive invocation : Type :=
| Call_screen_capture
| Call_extract_text (imageData : jsstring)
| Call_log_activity (description : jsstring)
    (confidence screen_text_length processing_time : option Q).

Definition invoke (E : engine) (clk : clock) (i : invocation) : comp metrics json :=
  match i with
  | Call_screen_capture => screen_capture clk
  | Call_extract_text imageData => extract_text E clk imageData
  | Call_log_activity d c l p => log_activity clk d c l p
  end.

(** The collector after a sequence of calls, each with its clock. *)
Fixpoint run (E : engine) (calls : list (clock * invocation)) (m : metrics) : metrics :=
  match calls with
  | [] => m
  | (clk, i) :: rest => run E rest (state_of (invoke E clk i m))
  end.

(** The counter that belongs to a tool. *)
Definition own_counter (i : invocation) (m : metrics) : N :=
  match i with
  | Call_screen_capture => screenCaptures m
  | Call_extract_text _ => ocrRequests m
  | Call_log_activity _ _ _ _ => activityLogs m
  end.

End Tools.

(** ** The specification's own notions *)

Module Spec.

(** The number of words of a text, as the specification describes it: the
    number of maximal runs of characters that are not white space. A word
    starts at a character that is not white space and that follows white
    space or the beginning of the text. *)
Fixpoint word_starts (after_ws : bool) (s : jsstring) : nat :=
  match s with
  | [] => 0
  | c :: r =>
      if isWhiteSpace c then word_starts true r
      else (if after_ws then 1 else 0) + word_starts false r
  end.

Definition count_words_spec (s : jsstring) : nat := word_starts true s.

(** Strict RFC 4648 base64 text, as the specification understands a
    payload that decodes: characters of the alphabet, a length that is a
    multiple of four, at most two [=] and only at the end. *)
Definition isBase64Char (c : N) : bool :=
  ((65 <=? c) && (c <=? 90) || (97 <=? c) && (c <=? 122)
   || (48 <=? c) && (c <=? 57) || (c =? 43) || (c =? 47))%N.

Fixpoint base64_body (s : jsstring) : bool :=
  match s with
  | [] => true
  | [a] => isBase64Char a || (a =? 61)%N
  | [a; b] => isBase64Char a && isBase64Char b
              || isBase64Char a && (b =? 61)%N
              || (a =? 61)%N && (b =? 61)%N
  | c :: r => isBase64Char c && base64_body r
  end.

Definition is_base64_spec (s : jsstring) : bool :=
  (length s mod 4 =? 0) && base64_body s.

(** The portion of a string after its first comma, when it has a comma. *)
Fixpoint after_first_comma (s : jsstring) : option jsstring :=
  match s with
  | [] => None
  | c :: r => if (c =? comma)%N then Some r else after_first_comma r
  end.

(** "Split on the first comma and discard the scheme prefix." *)
Definition payload_spec (imageData : jsstring) : jsstring :=
  match after_first_comma imageData with
  | Some p => p
  | None => imageData
  end.

(** A valid input: raw base64 or a data URL, the base64 text not empty. *)
Definition valid_image_input_spec (imageData : jsstring) : bool :=
  truthy_string (payload_spec imageData) && is_base64_spec (payload_spec imageData).

Definition is_string (v : json) : bool :=
  match v with JStr _ => true | _ => false end.

(** The uniform envelope: a [success] boolean, a [timestamp], and on
    failure an [error] string. *)
Definition uniform_envelope_spec (v : json) : bool :=
  match get_field (js "success") v with
  | JBool true => has_field (js "timestamp") v
  | JBool false => has_field (js "timestamp") v && is_string (get_field (js "error") v)
  | _ => false
  end.

End Spec.

(** ** Runs of the duplex transport *)

Module Run.
Import Broker.

(** What the transport delivers to the server, with the values that the
    handler reads from the id generator and the clock. *)
Inductive event : Type :=
| Connect (c : jsstring)
| Create_session (c sessionId : jsstring) (now : Z)
| Join_session (c sessionId : jsstring)
| Screen_data (c sessionId : jsstring) (chunk : json) (now : Z)
| Request_ocr (c sessionId : jsstring) (imageData : json) (now : Z)
| Disconnect (c : jsstring).

Definition handle (E : engine) (ev : event) : comp state unit :=
  match ev with
  | Connect c => connect c
  | Create_session c sessionId now => on_create_session c sessionId now
  | Join_session c sessionId => on_join_session c sessionId
  | Screen_data c sessionId chunk now => on_screen_data E c sessionId chunk now
  | Request_ocr c sessionId imageData now => on_request_ocr E c sessionId imageData now
  | Disconnect c => disconnect c
  end.

(** The states that the server can be in. *)
Inductive reachable (E : engine) : state -> Prop :=
| reachable_initial : reachable E initial
| reachable_step st ev :
    reachable E st -> reachable E (state_of (handle E ev st)).

(** The same handler run [n] times in a row. *)
Fixpoint times (n : nat) (m : comp state unit) : comp state unit :=
  match n with
  | O => ret tt
  | S n' => bind m (fun _ => times n' m)
  end.

(** Every viewer of a session is in the session's room. *)
Definition subscribed (st : state) : Prop :=
  ∀ k s v, lookup_session k (activeSessions st) = Some s →
           v ∈ viewers s → v ∈ members k st.


(** What the disconnect loop leaves of a session. *)
Definition clean (c : jsstring) (s : session) : session :=
  if includes c (viewers s)
  then with_viewers (filter (λ v, v ≠ c) (viewers s)) s else s.

Definition clean_or_drop (c : jsstring) (s : session) : option session :=
  if decide (host s = c) then None else Some (clean c s).

Definition is_error (a : action) : Prop :=
  ∃ tg p, a = Emit tg (js "error") p.
End Run.

Export Broker Tools Run Spec.

(** ** Auxiliary notions *)

(** The five counters of the collector, compared one by one. *)
Definition counters_le (m m' : metrics) : Prop :=
  (requests m <= requests m' ∧ errors m <= errors m'
   ∧ screenCaptures m <= screenCaptures m' ∧ ocrRequests m <= ocrRequests m'
   ∧ activityLogs m <= activityLogs m')%N.

(** The tokens that [filter(word => word.length > 0)] keeps, counted. *)
Definition nonempty_tokens (ts : list jsstring) : nat :=
  length (filter (λ word : jsstring, 0 < length word) ts).

(** ** Sample data *)

(** An engine that reads the same text in every image. *)
Definition engine0 : engine :=
  {| Buffer_from_base64 := λ _, [];
     recognize := λ _, inr {| text := js " HELLO  world "; confidence := 87 |} |}.

Definition clock0 : clock :=
  {| t_start := 1000; t_request := 1000; t_done := 1042;
     iso := js "2024-01-01T00:00:00.000Z" |}.

(** A host [X], its session [S], and a viewer [Y] who joined it. *)
Definition host_X : jsstring := js "X".
Definition viewer_Y : jsstring := js "Y".
Definition session_S : jsstring := js "S".

Definition state_hosted : state :=
  state_of (handle engine0 (Create_session host_X session_S 5)
    (state_of (handle engine0 (Connect host_X) initial))).

Definition state_viewed : state :=
  state_of (handle engine0 (Join_session viewer_Y session_S)
    (state_of (handle engine0 (Connect viewer_Y) state_hosted))).



(** Unfolding of the computations of the tool server and of the broker. *)
Ltac run_comp :=
  cbv [extract_text screen_capture log_activity invoke bind ret throw try_catch
       modify act get await_recognize state_of trace_of outcome_of fst snd].

Ltac run_broker :=
  cbv [on_screen_data on_request_ocr on_join_session on_create_session
       read_session read_data request_base64Data bind ret throw try_catch modify act get
       await_recognize state_of trace_of outcome_of fst snd app].

(** ** The session listing and the disconnect sweep *)

Module Listing.
Import Broker Run.

(** [Object.keys(activeSessions)], the [sessions] field of the answer to
    [GET /api/sessions]. *)
Definition api_sessions (st : state) : list jsstring :=
  map fst (activeSessions st).

(** The viewer list without the socket [c]:
    [viewers.filter(id => id !== c)]. *)
Definition without (c : jsstring) (vs : list jsstring) : list jsstring :=
  filter (λ v, v ≠ c) vs.

(** What one pass of the disconnect loop leaves of the table, entry by
    entry: the sessions of the host [c] go, the others lose the viewer [c]. *)
Definition swept (c : jsstring) (tbl : list (jsstring * session))
  : list (jsstring * session) :=
  flat_map (λ e, if decide (host e.2 = c) then [] else [(e.1, clean c e.2)]) tbl.

(** The actions of one pass of the disconnect loop, entry by entry. *)
Definition sweep_trace (c : jsstring) (tbl : list (jsstring * session)) : list action :=
  flat_map (λ e,
    if decide (host e.2 = c) then
      [Emit (ToRoom e.1) (js "session-ended") (message_payload "Host has disconnected");
       Delete e.1]
    else if includes c (viewers e.2) then
      [Emit (ToRoom (host e.2)) (js "viewer-left") (JObj [(js "viewerId", JStr c)])]
    else []) tbl.

(** Whether the action is an emit of the event [name] that the socket [v]
    receives, the rooms being those of [st]. *)
Definition reaches (st : state) (v name : jsstring) (a : action) : bool :=
  match a with
  | Emit tg ev _ => bool_decide (ev = name) && bool_decide (v ∈ recipients st tg)
  | _ => false
  end.

(** How many events [name] the socket [v] receives from a trace during which
    the rooms are those of [st]. *)
Fixpoint received (st : state) (v name : jsstring) (tr : list action) : nat :=
  match tr with
  | [] => 0
  | a :: r => (if reaches st v name a then 1 else 0) + received st v name r
  end.


(** A session carries the key it is stored under, and its host is in its
    room. *)
Definition keyed (st : state) : Prop :=
  ∀ k s, lookup_session k (activeSessions st) = Some s →
         id s = k ∧ host s ∈ members k st.

(** The socket that an event comes from. *)
Definition sender (ev : event) : jsstring :=
  match ev with
  | Connect c | Create_session c _ _ | Join_session c _ | Screen_data c _ _ _
  | Request_ocr c _ _ _ | Disconnect c => c
  end.

(** The names of the events that the server sends. *)
Definition to_one_socket : list jsstring :=
  [js "session-created"; js "session-joined"; js "ocr-result"; js "error"].

Definition to_a_room : list jsstring :=
  [js "viewer-joined"; js "viewer-left"; js "session-ended"].

(** The segment of [p] before its first comma. *)
Fixpoint first_segment (p : jsstring) : jsstring :=
  match p with
  | [] => []
  | c :: r => if (c =? comma)%N then [] else c :: first_segment r
  end.

(** The text between the first and the second comma of a string that has a
    comma, the whole string otherwise. *)
Definition selected_payload (d : jsstring) : jsstring :=
  match Spec.after_first_comma d with
  | Some p => first_segment p
  | None => d
  end.

End Listing.
Export Listing.

(** ** The collector over a sequence of calls, and its snapshot *)

Module Collector.
Import Tools.

(** The envelopes that a sequence of calls returns, in order. *)
Fixpoint responses (E : engine) (calls : list (clock * invocation)) (m : metrics)
  : list json :=
  match calls with
  | [] => []
  | (clk, i) :: rest =>
      match outcome_of (invoke E clk i m) with
      | inr envelope => [envelope]
      | inl _ => []
      end ++ responses E rest (state_of (invoke E clk i m))
  end.

(** An envelope with [success: false]. *)
Definition is_failure (envelope : json) : bool :=
  match get_field (js "success") envelope with
  | JBool false => true
  | _ => false
  end.

Definition failures (envelopes : list json) : nat :=
  length (filter (λ e, is_failure e = true) envelopes).

Definition is_extract_text (call : clock * invocation) : bool :=
  match call.2 with Call_extract_text _ => true | _ => false end.

(** What [getMetrics()] returns: the fields of [metrics] spread, then
    [uptimeSeconds], [memory] and [cpu]; [now] is what [Date.now()] reads,
    [mem] and [usage] what [process.memoryUsage()] and [process.cpuUsage()]
    return. *)
Record snapshot : Type := {
  spread : metrics;
  uptimeSeconds : Z;
  memory : json;
  cpu : json
}.

(** [Math.floor((Date.now() - this.metrics.uptime) / 1000)] *)
Definition getMetrics (now : Z) (mem usage : json) (m : metrics) : snapshot :=
  {| spread := m;
     uptimeSeconds := ((now - uptime m) / 1000)%Z;
     memory := mem;
     cpu := usage |}.

End Collector.

(** ** Configuration, logger and start-up of the tool server *)

Module Startup.

(** [a || b] for an [a] that is [undefined] or a string. *)
Definition or_else (a : option jsstring) (b : jsstring) : jsstring :=
  match a with
  | Some ((_ :: _) as s) => s
  | _ => b
  end.

(** [a !== 'false'] for an [a] that is [undefined] or a string. *)
Definition not_false (a : option jsstring) : bool :=
  match a with
  | Some s => negb (bool_decide (s = js "false"))
  | None => true
  end.

(** What the configuration reads: [process.argv[2]] and the environment. *)
Record environment : Type := {
  argv2 : option jsstring;
  MCP_TRANSPORT : option jsstring;
  LOG_LEVEL : option jsstring;
  ALLOWED_ORIGINS : option jsstring;
  ENABLE_DNS_REBINDING_PROTECTION : option jsstring;
  ENABLE_METRICS : option jsstring;
  ENABLE_HEALTH_CHECK : option jsstring
}.

(** The [config] object, without its three numbers ([port],
    [shutdownTimeout], [requestTimeout]). *)
Record config : Type := {
  transport : jsstring;
  logLevel : jsstring;
  allowedOrigins : list jsstring;
  enableDnsRebinding : bool;
  enableMetrics : bool;
  enableHealthCheck : bool
}.

Definition default_origins : jsstring :=
  js "http://localhost:3000,http://localhost:8080,http://127.0.0.1:3000".

Definition read_config (env : environment) : config :=
  {| transport := or_else (argv2 env) (or_else (MCP_TRANSPORT env) (js "stdio"));
     logLevel := or_else (LOG_LEVEL env) (js "info");
     allowedOrigins := split_char comma (or_else (ALLOWED_ORIGINS env) default_origins);
     enableDnsRebinding := not_false (ENABLE_DNS_REBINDING_PROTECTION env);
     enableMetrics := not_false (ENABLE_METRICS env);
     enableHealthCheck := not_false (ENABLE_HEALTH_CHECK env) |}.

(** The four methods of [logger]. *)
Inductive log_method : Type := Log_debug | Log_info | Log_warn | Log_error.

(** Whether a method of [logger] writes its line, given [config.logLevel]:
    [['debug', ...].includes(config.logLevel)], and always for [error]. *)
Definition logger_writes (level : jsstring) (m : log_method) : bool :=
  match m with
  | Log_debug => bool_decide (level ∈ [js "debug"])
  | Log_info => bool_decide (level ∈ [js "debug"; js "info"])
  | Log_warn => bool_decide (level ∈ [js "debug"; js "info"; js "warn"])
  | Log_error => true
  end.

(** What [main()] does: start one of the two servers, or [process.exit(1)]. *)
Inductive started : Type :=
| Start_stdio
| Start_http
| Exit_1.

(** The [switch (config.transport)] of [main()]. *)
Definition main (cfg : config) : started :=
  if decide (transport cfg = js "stdio") then Start_stdio
  else if decide (transport cfg = js "http") then Start_http
  else if decide (transport cfg = js "streamable-http") then Start_http
  else Exit_1.

End Startup.

(** ** Graceful shutdown *)

Module Shutdown.

(** The two fields of [GracefulShutdown]; [httpServer] is [null] or set. *)
Record coordinator : Type := {
  isShuttingDown : bool;
  httpServer : bool
}.

Definition new_coordinator : coordinator :=
  {| isShuttingDown := false; httpServer := false |}.

(** [setHttpServer(server)] *)
Definition setHttpServer (k : coordinator) : coordinator :=
  {| isShuttingDown := isShuttingDown k; httpServer := true |}.

(** What [httpServer.close(callback)] does relative to the shutdown timer:
    it calls back in time without or with an error, it throws, or the timer
    fires first. *)
Inductive close_result : Type :=
| Closed_clean
| Closed_with_error
| Close_throws
| Timer_first.

Inductive shutdown_action : Type :=
| Server_close
| Process_exit (code : Z).

(** [shutdown(signal)]: the coordinator afterwards and what the process
    does, [process.exit] last. *)
Definition shutdown (k : coordinator) (r : close_result)
  : coordinator * list shutdown_action :=
  if isShuttingDown k then (k, [Process_exit 1])
  else
    let k' := {| isShuttingDown := true; httpServer := httpServer k |} in
    if httpServer k then
      match r with
      | Closed_clean | Closed_with_error => (k', [Server_close; Process_exit 0])
      | Close_throws => (k', [Server_close; Process_exit 1])
      | Timer_first => (k', [Server_close; Process_exit 1])
      end
    else (k', [Process_exit 0]).

End Shutdown.

(** ** The compiled build of the tool server *)

Module Dist.
Import Tools.
Local Open Scope comp_scope.

(** Tool [screen_capture] of the compiled build: no collector, no
    processing time. *)
Definition screen_capture (clk : clock) : comp unit json :=
  ret (JObj [(js "success", JBool true);
             (js "imageData", JStr (js "mock_base64_image_data"));
             (js "timestamp", JStr (iso clk));
             (js "metadata",
               JObj [(js "width", num_Z 1920);
                     (js "height", num_Z 1080);
                     (js "format", JStr (js "png"))])]).

(** Tool [extract_text] of the compiled build. *)
Definition extract_text (E : engine) (clk : clock) (imageData : jsstring)
  : comp unit json :=
  try_catch
    (let startTime := t_start clk in
     let base64Data := base64Data_of imageData in
     if negb (truthy_string base64Data) then throw (ThrowError invalid_image_data)
     else
       let imageBuffer := Buffer_from_base64 E base64Data in
       result <- await_recognize E imageBuffer ;;
       let extractedText := trim (text result) in
       let confidence := (confidence result / 100)%Q in
       let processingTime := (t_done clk - startTime)%Z in
       ret (JObj [(js "success", JBool true);
                  (js "text", JStr extractedText);
                  (js "confidence", JNum confidence);
                  (js "processingTime", num_Z processingTime);
                  (js "timestamp", JStr (iso clk));
                  (js "metadata",
                    JObj [(js "textLength", num_nat (length extractedText));
                          (js "wordCount", num_nat (wordCount extractedText))])]))
    (λ error,
       ret (JObj [(js "success", JBool false);
                  (js "error", JStr (message_or (js "OCR processing failed") error))])).

(** Tool [log_activity] of the compiled build. *)
Definition log_activity (clk : clock) (description : jsstring)
    (confidence screen_text_length processing_time : option Q)
  : comp unit json :=
  let confidence := default 0%Q confidence in
  let screen_text_length := default 0%Q screen_text_length in
  let processing_time := default 0%Q processing_time in
  let logEntry :=
    [(js "timestamp", JStr (iso clk));
     (js "description", JStr description);
     (js "confidence", JNum confidence);
     (js "screen_text_length", JNum screen_text_length);
     (js "processing_time", JNum processing_time);
     (js "id", JStr (activity_id (t_done clk)))] in
  ret (JObj [(js "success", JBool true);
             (js "logged_at", JStr (iso clk));
             (js "activity_id", JStr (activity_id (t_done clk)));
             (js "entry", JObj logEntry)]).

(** An object without the field [k]. *)
Definition remove_field (k : jsstring) (v : json) : json :=
  match v with
  | JObj fs => JObj (filter (λ f, f.1 ≠ k) fs)
  | _ => v
  end.

End Dist.

Export Collector Startup Shutdown.

(** An engine that rejects every image with a value that is not an
    [Error]. *)
Definition engine_down : engine :=
  {| Buffer_from_base64 := λ _, [];
     recognize := λ _, inl (ThrowOther (JStr (js "worker terminated"))) |}.


(** Membership in a list that is written out. *)
Ltac in_list :=
  repeat first [apply list_elem_of_here | apply list_elem_of_further].

Ltac by_cases H :=
  repeat (apply elem_of_cons in H as [H|H]; [try subst; try in_list; try congruence|]);
  try (by apply elem_of_nil in H).

Ltac emitted_exit H :=
  repeat (apply elem_of_cons in H as [H|H]; [discriminate H|]);
  by apply elem_of_nil in H.

(** The emit that a membership in a written-out trace stands for. *)
Ltac emitted H :=
  repeat (apply elem_of_cons in H as [H|H]);
  try (by apply elem_of_nil in H); try discriminate H;
  injection H as -> -> ->.

(** Membership in one of the two lists of event names. *)
Ltac listed :=
  unfold to_one_socket, to_a_room;
  repeat first [apply list_elem_of_here | apply list_elem_of_further].

(** Evaluation of [is_failure] on an envelope that is written out. *)
Ltac eval_failure :=
  repeat match goal with
  | |- context [is_failure ?e] =>
      let b := eval vm_compute in (is_failure e) in
      change (is_failure e) with b
  end.

(** * Facts *)

(** ** Strings *)

Example split_char_data_url :
  split_char comma (js "data:image/png;base64,AAAA")
  = [js "data:image/png;base64"; js "AAAA"].
Proof. reflexivity. Qed.

Example split_ws_ex : split_ws (js " a  b ") = [[]; js "a"; js "b"; []].
Proof. reflexivity. Qed.

Example trim_ex : trim (js "  HELLO world
 ") = js "HELLO world".
Proof. reflexivity. Qed.

Example wordCount_ex : wordCount (js "HELLO  world") = 2.
Proof. reflexivity. Qed.

Example base64Data_of_ex :
  base64Data_of (js "data:image/png;base64,AAAA") = js "AAAA"
  ∧ base64Data_of (js "AAAA") = js "AAAA"
  ∧ base64Data_of (js "a,,b") = [].
Proof. repeat split; reflexivity. Qed.

Section TrimFacts.
Lemma trimStart_split (s : jsstring) :
  ∃ pre, s = pre ++ trimStart s ∧ forallb isWhiteSpace pre = true.
Proof.
  induction s as [|c r IH]; simpl.
  - by exists [].
  - destruct (isWhiteSpace c) eqn:Hc.
    + destruct IH as (pre & Heq & Hws). exists (c :: pre). simpl.
      rewrite Hc, Hws. split; [by f_equal | done].
    + by exists [].
Qed.

Lemma trimStart_head (s : jsstring) (c : N) :
  head (trimStart s) = Some c → isWhiteSpace c = false.
Proof.
  induction s as [|a r IH]; simpl; [done|].
  destruct (isWhiteSpace a) eqn:Ha; [done|].
  simpl. by intros [= <-].
Qed.

Lemma trim_split (s : jsstring) :
  ∃ pre post, s = pre ++ trim s ++ post
    ∧ forallb isWhiteSpace pre = true ∧ forallb isWhiteSpace post = true.
Proof.
  destruct (trimStart_split s) as (pre & Hs & Hpre).
  destruct (trimStart_split (rev (trimStart s))) as (post & Hr & Hpost).
  exists pre, (rev post). repeat split; [|done|].
  - rewrite Hs at 1. f_equal. unfold trim, trimEnd.
    rewrite <- rev_app_distr, <- Hr. by rewrite rev_involutive.
  - rewrite forallb_forall in *. intros x Hx. apply Hpost. by apply in_rev.
Qed.

Lemma trim_head (s : jsstring) (c : N) :
  head (trim s) = Some c → isWhiteSpace c = false.
Proof.
  intros Hc. apply (trimStart_head s).
  destruct (trimStart_split (rev (trimStart s))) as (post & Hr & _).
  assert (Ht : trimStart s = trim s ++ rev post).
  { unfold trim, trimEnd. rewrite <- rev_app_distr, <- Hr. by rewrite rev_involutive. }
  rewrite Ht. destruct (trim s); [done|]. simpl in *. done.
Qed.

Lemma trim_last (s : jsstring) (c : N) :
  last (trim s) = Some c → isWhiteSpace c = false.
Proof.
  unfold trim, trimEnd. intros [l' Hl']%last_Some.
  apply (f_equal (@rev N)) in Hl'. rewrite rev_involutive, rev_app_distr in Hl'.
  apply (trimStart_head (rev (trimStart s))). by rewrite Hl'.
Qed.
End TrimFacts.

Section WordFacts.
Lemma split_ws_aux_cons (b : bool) (s : jsstring) :
  ∃ t ts, split_ws_aux b s = t :: ts.
Proof.
  revert b. induction s as [|c r IH]; intros b; simpl; [by eexists _, _|].
  destruct (isWhiteSpace c).
  - destruct b; [apply IH | by eexists _, _].
  - destruct (IH false) as (t & ts & ->). by eexists _, _.
Qed.

Lemma split_ws_aux_count (s : jsstring) :
  nonempty_tokens (split_ws_aux true s) = word_starts true s
  ∧ ∃ t ts, split_ws_aux false s = t :: ts
      ∧ nonempty_tokens ts = word_starts false s
      ∧ (t = [] ↔ match s with [] => True | c :: _ => isWhiteSpace c = true end).
Proof.
  induction s as [|c r (IHt & t & ts & Hf & Hts & Ht)]; simpl.
  - split; [done|]. exists [], []. done.
  - destruct (isWhiteSpace c) eqn:Hc.
    + split; [done|]. exists [], (split_ws_aux true r). done.
    + rewrite Hf. split.
      * unfold nonempty_tokens. rewrite filter_cons_True by (simpl; lia).
        simpl. f_equal. apply Hts.
      * exists (c :: t), ts. repeat split; try done.
Qed.

Lemma wordCount_spec (s : jsstring) : wordCount s = count_words_spec s.
Proof.
  unfold wordCount, count_words_spec, split_ws.
  destruct (split_ws_aux_count s) as (_ & t & ts & -> & Hts & Ht).
  fold (nonempty_tokens (t :: ts)). unfold nonempty_tokens.
  destruct s as [|c r]; simpl in *.
  - assert (t = []) as -> by by apply Ht.
    rewrite filter_cons_False by (simpl; lia). apply Hts.
  - destruct (isWhiteSpace c) eqn:Hc.
    + assert (t = []) as -> by by apply Ht.
      rewrite filter_cons_False by (simpl; lia). apply Hts.
    + destruct t as [|a t]; [destruct Ht as [Ht _]; by specialize (Ht eq_refl)|].
      rewrite filter_cons_True by (simpl; lia). simpl. f_equal. apply Hts.
Qed.
End WordFacts.

Section CommaFacts.
Lemma split_char_cons (sep : N) (s : jsstring) :
  ∃ t ts, split_char sep s = t :: ts.
Proof.
  induction s as [|c r (t & ts & IH)]; simpl; [by eexists _, _|].
  destruct (c =? sep)%N; [by eexists _, _|]. rewrite IH. by eexists _, _.
Qed.

Lemma includes_after_first_comma (s : jsstring) :
  includes_char comma s = match after_first_comma s with Some _ => true | None => false end.
Proof.
  unfold includes_char. induction s as [|c r IH]; simpl; [done|].
  destruct (c =? comma)%N; simpl; done.
Qed.

Lemma split_char_no_comma (s : jsstring) :
  after_first_comma s = None → split_char comma s = [s].
Proof.
  induction s as [|c r IH]; simpl; [done|].
  destruct (c =? comma)%N; [done|]. intros H. by rewrite (IH H).
Qed.

Lemma split_char_after (s p : jsstring) :
  after_first_comma s = Some p → ∃ t, split_char comma s = t :: split_char comma p.
Proof.
  revert p. induction s as [|c r IH]; simpl; intros p; [done|].
  destruct (c =? comma)%N.
  - intros [= <-]. by eexists.
  - intros H. destruct (IH _ H) as (t & ->). by eexists.
Qed.

Lemma base64_body_chars (s : jsstring) :
  base64_body s = true → ∀ c, c ∈ s → isBase64Char c || (c =? 61)%N = true.
Proof.
  induction s as [|a s IH]; intros Hb c Hc; [by apply elem_of_nil in Hc|].
  destruct s as [|b [|d s]].
  - apply list_elem_of_singleton in Hc as ->. exact Hb.
  - simpl in Hb. set_unfold in Hc.
    destruct Hc as [-> | [-> | []]];
      destruct (isBase64Char a), (isBase64Char b), (a =? 61)%N, (b =? 61)%N;
      simpl in *; congruence.
  - change (isBase64Char a && base64_body (b :: d :: s) = true) in Hb.
    apply andb_true_iff in Hb as [Ha Hb].
    apply elem_of_cons in Hc as [-> | Hc]; [by rewrite Ha|]. by apply IH.
Qed.

Lemma base64_no_comma (s : jsstring) :
  base64_body s = true → after_first_comma s = None.
Proof.
  intros Hb. pose proof (base64_body_chars s Hb) as Hall. clear Hb.
  induction s as [|c r IH]; simpl; [done|].
  destruct (c =? comma)%N eqn:Hc.
  - apply N.eqb_eq in Hc as ->. specialize (Hall comma (list_elem_of_here _ _)).
    by vm_compute in Hall.
  - apply IH. intros x Hx. apply Hall. by apply list_elem_of_further.
Qed.

Lemma base64Data_of_valid (imageData : jsstring) :
  valid_image_input_spec imageData = true →
  base64Data_of imageData = payload_spec imageData
  ∧ truthy_string (payload_spec imageData) = true.
Proof.
  unfold valid_image_input_spec, is_base64_spec, base64Data_of, payload_spec.
  rewrite includes_after_first_comma.
  destruct (after_first_comma imageData) as [p|] eqn:Hp.
  - intros [Ht [_ Hb]%andb_true_iff]%andb_true_iff. split; [|done].
    destruct (split_char_after _ _ Hp) as (t & ->).
    rewrite (split_char_no_comma p (base64_no_comma p Hb)). simpl.
    by destruct p.
  - by intros [Ht _]%andb_true_iff.
Qed.
End CommaFacts.


(** ** The tool [extract_text] *)

(** C4. On a valid input (raw base64 or a data URL whose base64 text is not
    empty) for which the engine answers with a text and a confidence between
    0 and 100, [extract_text] returns a success envelope: its [text] is the
    engine's text without the white space at either end, its [confidence] is
    the engine's confidence divided by 100 and lies between 0 and 1, and its
    [wordCount] is the number of maximal runs of characters that are not
    white space in that text. *)
Theorem extract_text_valid_input (E : engine) (clk : clock) (imageData : jsstring)
    (m : metrics) (d : ocr_data) :
  valid_image_input_spec imageData = true →
  recognize E (Buffer_from_base64 E (payload_spec imageData)) = inr d →
  (0 <= confidence d)%Q → (confidence d <= 100)%Q →
  ∃ envelope q,
    outcome_of (extract_text E clk imageData m) = inr envelope
    ∧ get_field (js "success") envelope = JBool true
    ∧ get_field (js "text") envelope = JStr (trim (text d))
    ∧ (∃ pre post, text d = pre ++ trim (text d) ++ post
         ∧ forallb isWhiteSpace pre = true ∧ forallb isWhiteSpace post = true)
    ∧ (∀ c, head (trim (text d)) = Some c ∨ last (trim (text d)) = Some c →
            isWhiteSpace c = false)
    ∧ get_field (js "confidence") envelope = JNum q
    ∧ (q == confidence d / 100)%Q ∧ (0 <= q)%Q ∧ (q <= 1)%Q
    ∧ get_field (js "wordCount") (get_field (js "metadata") envelope)
      = num_nat (count_words_spec (trim (text d))).
Proof.
  intros Hvalid Hrec Hlo Hhi.
  destruct (base64Data_of_valid _ Hvalid) as [Hdata Htruthy].
  eexists _, (confidence d / 100)%Q. run_comp.
  rewrite Hdata, Htruthy. simpl negb. cbv iota. rewrite Hrec.
  split; [reflexivity|].
  repeat split; try reflexivity.
  - apply trim_split.
  - intros c [Hc | Hc]; [by eapply trim_head | by eapply trim_last].
  - apply Qle_shift_div_l; [done|]. by rewrite Qmult_0_l.
  - apply Qle_shift_div_r; [done|]. by rewrite Qmult_1_l.
  - rewrite <- wordCount_spec. reflexivity.
Qed.


(** C4 at a data URL, with an engine that reads [" HELLO  world "]. *)
Lemma extract_text_valid_input_witness :
  valid_image_input_spec (js "data:image/png;base64,AAAA") = true
  ∧ ∃ envelope,
      outcome_of (extract_text engine0 clock0 (js "data:image/png;base64,AAAA") (fresh 0))
        = inr envelope
      ∧ get_field (js "text") envelope = JStr (js "HELLO  world")
      ∧ get_field (js "wordCount") (get_field (js "metadata") envelope) = num_nat 2.
Proof.
  split; [reflexivity|].
  destruct (extract_text_valid_input engine0 clock0 (js "data:image/png;base64,AAAA")
              (fresh 0) {| text := js " HELLO  world "; confidence := 87 |})
    as (envelope & q & Hout & _ & Htext & _ & _ & _ & _ & _ & _ & Hwords);
    [reflexivity | reflexivity | by vm_compute | by vm_compute |].
  exists envelope. split; [exact Hout|]. split; [exact Htext | exact Hwords].
Defined.


(** C5 as it is stated fails: the one-character input ["!"] is not base64
    text, and yet the engine is invoked on it and the envelope that comes
    back is a success. *)
Lemma extract_text_malformed_reaches_engine :
  is_base64_spec (payload_spec (js "!")) = false
  ∧ trace_of (extract_text engine0 clock0 (js "!") (fresh 0))
    = [Recognize (Buffer_from_base64 engine0 (js "!"))]
  ∧ ∃ envelope,
      outcome_of (extract_text engine0 clock0 (js "!") (fresh 0)) = inr envelope
      ∧ get_field (js "success") envelope = JBool true.
Proof.
  split; [reflexivity|]. split; [reflexivity|].
  eexists. split; reflexivity.
Qed.

Lemma base64Data_of_empty (imageData : jsstring) :
  imageData = [] ∨ after_first_comma imageData = Some [] →
  base64Data_of imageData = [].
Proof.
  intros [-> | Hp]; [reflexivity|].
  unfold base64Data_of. rewrite includes_after_first_comma, Hp.
  destruct (split_char_after _ _ Hp) as (t & ->). reflexivity.
Qed.


(** C5, amended. An input that is empty, or whose portion after the first
    comma is empty, gets a failure envelope with the invalid-image-data
    message; the engine is not invoked and the error counter goes up by
    one. Decoding cannot fail: every payload that is not empty, base64 or
    not, is decoded and handed to the engine. *)
Theorem extract_text_empty_payload (E : engine) (clk : clock) (imageData : jsstring)
    (m : metrics) :
  imageData = [] ∨ after_first_comma imageData = Some [] →
  outcome_of (extract_text E clk imageData m)
    = inr (JObj [(js "success", JBool false);
                 (js "error", JStr invalid_image_data);
                 (js "timestamp", JStr (iso clk))])
  ∧ trace_of (extract_text E clk imageData m) = []
  ∧ errors (state_of (extract_text E clk imageData m)) = (errors m + 1)%N
  ∧ ∀ other : jsstring,
      base64Data_of other ≠ [] →
      trace_of (extract_text E clk other m)
        = [Recognize (Buffer_from_base64 E (base64Data_of other))].
Proof.
  intros Hempty. apply base64Data_of_empty in Hempty.
  run_comp. rewrite Hempty. simpl. repeat split.
  intros other Hother. destruct (base64Data_of other) eqn:Hb; [done|].
  simpl. destruct (recognize E _); reflexivity.
Qed.


(** C5, amended, at a data URL with nothing after its comma. *)
Lemma extract_text_empty_payload_witness :
  (js "data:image/png;base64," = [] ∨ after_first_comma (js "data:image/png;base64,") = Some [])
  ∧ trace_of (extract_text engine0 clock0 (js "data:image/png;base64,") (fresh 0)) = [].
Proof.
  assert (H : js "data:image/png;base64," = []
              ∨ after_first_comma (js "data:image/png;base64,") = Some [])
    by (right; reflexivity).
  split; [exact H|].
  exact (proj1 (proj2 (extract_text_empty_payload engine0 clock0 _ (fresh 0) H))).
Defined.


(** ** The metrics collector *)
Lemma counters_le_refl (m : metrics) : counters_le m m.
Proof. unfold counters_le. lia. Qed.

Lemma counters_le_trans (m1 m2 m3 : metrics) :
  counters_le m1 m2 → counters_le m2 m3 → counters_le m1 m3.
Proof. unfold counters_le. lia. Qed.

Lemma increment_le (k : metric_key) (m : metrics) : counters_le m (increment k m).
Proof. unfold counters_le. destruct k; simpl; lia. Qed.

Lemma invoke_le (E : engine) (clk : clock) (i : invocation) (m : metrics) :
  counters_le m (state_of (invoke E clk i m)).
Proof.
  destruct i as [|imageData|]; run_comp; [unfold counters_le; simpl; lia| |unfold counters_le; simpl; lia].
  destruct (truthy_string (base64Data_of imageData)); simpl;
    [destruct (recognize E _)|]; unfold counters_le; simpl; lia.
Qed.


(** C7. No operation of the collector lowers a counter, the five counters
    never go down along a sequence of tool invocations, and one invocation
    raises the request counter by exactly one, the counter of its own tool by
    exactly one, and no counter of another tool. *)
Theorem metrics_monotone (E : engine) :
  (∀ k m, counters_le m (increment k m))
  ∧ (∀ t m, counters_le m (updateLastRequest t m))
  ∧ (∀ calls m, counters_le m (run E calls m))
  ∧ (∀ clk i m,
       let m' := state_of (invoke E clk i m) in
       requests m' = (requests m + 1)%N
       ∧ own_counter i m' = (own_counter i m + 1)%N
       ∧ (screenCaptures m' + ocrRequests m' + activityLogs m'
          = screenCaptures m + ocrRequests m + activityLogs m + 1)%N).
Proof.
  split; [exact increment_le|]. split; [intros; unfold counters_le; simpl; lia|]. split.
  - intros calls. induction calls as [|[clk i] rest IH]; intros m; simpl.
    + apply counters_le_refl.
    + eapply counters_le_trans; [apply invoke_le | apply IH].
  - intros clk i m. destruct i as [|imageData|]; run_comp; simpl; [lia| |lia].
    destruct (truthy_string (base64Data_of imageData)); simpl;
      [destruct (recognize E _)|]; simpl; lia.
Qed.


(** C8. [log_activity] answers with [success: true], and each of
    [confidence], [screen_text_length] and [processing_time] that the caller
    leaves out is zero in the logged entry; with only a description all three
    are zero. *)
Theorem log_activity_defaults (clk : clock) (description : jsstring) (m : metrics)
    (confidence screen_text_length processing_time : option Q) :
  ∃ envelope,
    outcome_of (log_activity clk description confidence screen_text_length
                  processing_time m) = inr envelope
    ∧ get_field (js "success") envelope = JBool true
    ∧ (confidence = None →
       get_field (js "confidence") (get_field (js "entry") envelope) = JNum 0)
    ∧ (screen_text_length = None →
       get_field (js "screen_text_length") (get_field (js "entry") envelope) = JNum 0)
    ∧ (processing_time = None →
       get_field (js "processing_time") (get_field (js "entry") envelope) = JNum 0).
Proof.
  eexists. run_comp. split; [reflexivity|]. split; [reflexivity|].
  repeat split; intros ->; reflexivity.
Qed.


(** ** The session table *)
Section TableFacts.
Implicit Types (k : jsstring) (s : session) (tbl : list (jsstring * session)).

Lemma lookup_delete_session k k' tbl :
  lookup_session k' (delete_session k tbl)
  = if decide (k = k') then None else lookup_session k' tbl.
Proof.
  unfold delete_session. induction tbl as [|[k0 s0] r IH]; simpl.
  - by case_decide.
  - destruct (decide (k0 = k)) as [->|Hne].
    + rewrite filter_cons_False by (simpl; tauto). rewrite IH.
      repeat case_decide; congruence.
    + rewrite filter_cons_True by done. simpl. rewrite IH.
      repeat case_decide; congruence.
Qed.

Lemma lookup_update_session k k' f tbl :
  lookup_session k' (update_session k f tbl)
  = if decide (k = k') then f <$> lookup_session k' tbl else lookup_session k' tbl.
Proof.
  unfold update_session. induction tbl as [|[k0 s0] r IH]; simpl.
  - by case_decide.
  - rewrite IH. repeat (case_decide; simpl in *; subst); try congruence; done.
Qed.

Lemma lookup_set_session k k' s tbl :
  lookup_session k' (set_session k s tbl)
  = if decide (k = k') then Some s else lookup_session k' tbl.
Proof.
  induction tbl as [|[k0 s0] r IH]; simpl.
  - repeat case_decide; congruence.
  - repeat (case_decide; simpl in *; subst); try congruence; done.
Qed.

Lemma lookup_session_key k s tbl :
  lookup_session k tbl = Some s → k ∈ map fst tbl.
Proof.
  induction tbl as [|[k0 s0] r IH]; simpl; [done|].
  case_decide as Hk; [subst; intros _; apply list_elem_of_here|].
  intros Hl. apply list_elem_of_further. by apply IH.
Qed.
End TableFacts.


(** ** The disconnect loop *)
Section DisconnectFacts.
Implicit Types (c k : jsstring) (s : session) (st : state).

Lemma clean_host c s : host (clean c s) = host s.
Proof. unfold clean. by destruct (includes c (viewers s)). Qed.

Lemma clean_viewers c s v : v ∈ viewers (clean c s) ↔ v ∈ viewers s ∧ v ≠ c.
Proof.
  unfold clean, includes. case_bool_decide as Hc; simpl.
  - rewrite list_elem_of_filter. tauto.
  - split; [|tauto]. intros Hv. split; [done|]. by intros ->.
Qed.

Lemma clean_includes c s : includes c (viewers (clean c s)) = false.
Proof.
  unfold includes. apply bool_decide_eq_false. rewrite clean_viewers. tauto.
Qed.

Lemma clean_or_drop_idem c s s' :
  clean_or_drop c s = Some s' → clean_or_drop c s' = Some s'.
Proof.
  unfold clean_or_drop. case_decide as Hh; [done|]. intros [= <-].
  rewrite clean_host. case_decide; [done|]. f_equal.
  unfold clean at 1. by rewrite clean_includes.
Qed.

(** One turn of the loop, on the table. *)
Lemma disconnect_body_lookup c k k' st :
  rooms (state_of (disconnect_body c k st)) = rooms st
  ∧ lookup_session k' (activeSessions (state_of (disconnect_body c k st)))
    = if decide (k = k')
      then lookup_session k' (activeSessions st) ≫= clean_or_drop c
      else lookup_session k' (activeSessions st).
Proof.
  unfold disconnect_body, bind, get, modify, act, ret, state_of; simpl.
  destruct (lookup_session k (activeSessions st)) as [s|] eqn:Hs; simpl.
  - destruct (decide (host s = c)) as [Hh|Hh]; simpl.
    + split; [done|]. rewrite lookup_delete_session.
      case_decide; [subst k'|done]. rewrite Hs. simpl.
      unfold clean_or_drop. by rewrite decide_True.
    + destruct (includes c (viewers s)) eqn:Hi; simpl.
      * split; [done|]. rewrite lookup_update_session.
        case_decide; [subst k'|done]. rewrite Hs. simpl.
        unfold clean_or_drop, clean. by rewrite decide_False, Hi.
      * split; [done|]. case_decide; [subst k'|done]. rewrite Hs. simpl.
        unfold clean_or_drop, clean. by rewrite decide_False, Hi.
  - split; [done|]. case_decide; [subst k'|done]. by rewrite Hs.
Qed.

Lemma disconnect_loop_cons c k ks st :
  disconnect_loop c (k :: ks) st
  = let r := disconnect_body c k st in
    let r' := disconnect_loop c ks (state_of r) in
    (state_of r', trace_of r ++ trace_of r', outcome_of r').
Proof.
  simpl. unfold bind, state_of, trace_of, outcome_of.
  assert (Hok : ∃ st1 tr1, disconnect_body c k st = (st1, tr1, inr tt)).
  { unfold disconnect_body, bind, get, modify, act, ret.
    destruct (lookup_session k (activeSessions st)) as [s|]; simpl;
      [|by eexists _, _].
    destruct (decide (host s = c)); simpl; [by eexists _, _|].
    destruct (includes c (viewers s)); simpl; by eexists _, _. }
  destruct Hok as (st1 & tr1 & ->). simpl.
  by destruct (disconnect_loop c ks st1) as [[st2 tr2] o2].
Qed.

Lemma disconnect_loop_state c k ks st :
  state_of (disconnect_loop c (k :: ks) st)
  = state_of (disconnect_loop c ks (state_of (disconnect_body c k st))).
Proof. by rewrite disconnect_loop_cons. Qed.

Lemma disconnect_loop_trace c k ks st :
  trace_of (disconnect_loop c (k :: ks) st)
  = trace_of (disconnect_body c k st)
    ++ trace_of (disconnect_loop c ks (state_of (disconnect_body c k st))).
Proof. by rewrite disconnect_loop_cons. Qed.

Lemma disconnect_loop_lookup c ks k' st :
  rooms (state_of (disconnect_loop c ks st)) = rooms st
  ∧ lookup_session k' (activeSessions (state_of (disconnect_loop c ks st)))
    = if decide (k' ∈ ks)
      then lookup_session k' (activeSessions st) ≫= clean_or_drop c
      else lookup_session k' (activeSessions st).
Proof.
  revert st. induction ks as [|k ks IH]; intros st.
  - split; [done|]. rewrite decide_False; [done|]. apply not_elem_of_nil.
  - rewrite disconnect_loop_state.
    destruct (IH (state_of (disconnect_body c k st))) as [Hr Hl].
    destruct (disconnect_body_lookup c k k' st) as [Hr1 Hl1].
    split; [congruence|]. rewrite Hl, Hl1.
    destruct (decide (k = k')) as [->|Hne].
    + rewrite (decide_True (P := k' ∈ k' :: ks)) by apply list_elem_of_here.
      case_decide; [|done].
      destruct (lookup_session k' (activeSessions st)) as [s|]; simpl; [|done].
      destruct (clean_or_drop c s) as [s'|] eqn:Hc; simpl; [|done].
      by apply clean_or_drop_idem in Hc.
    + destruct (decide (k' ∈ ks)) as [Hin|Hin].
      * by rewrite decide_True by by apply list_elem_of_further.
      * rewrite decide_False; [done|]. by intros [->|?]%elem_of_cons.
Qed.

Lemma on_disconnect_lookup c k' st :
  rooms (state_of (on_disconnect c st)) = rooms st
  ∧ lookup_session k' (activeSessions (state_of (on_disconnect c st)))
    = lookup_session k' (activeSessions st) ≫= clean_or_drop c.
Proof.
  unfold on_disconnect, bind, get. simpl.
  pose proof (disconnect_loop_lookup c (map fst (activeSessions st)) k' st) as [Hr Hl].
  destruct (disconnect_loop c (map fst (activeSessions st)) st) as [[st2 tr2] o2] eqn:Hloop.
  unfold state_of in *. simpl in *. split; [done|]. rewrite Hl.
  case_decide as Hin; [done|].
  destruct (lookup_session k' (activeSessions st)) as [s|] eqn:Hs; [|done].
  by apply lookup_session_key in Hs.
Qed.





End DisconnectFacts.


(** ** Rooms *)
Section RoomFacts.
Implicit Types (c k r v : jsstring) (st : state).

Lemma members_join_room c r k st :
  members k (join_room c r st)
  = if decide (r = k) then {[c]} ∪ members k st else members k st.
Proof.
  unfold members, join_room. simpl. rewrite lookup_insert.
  by case_decide; subst.
Qed.

Lemma members_leave_all c k st :
  members k (leave_all c st) = members k st ∖ {[c]}.
Proof.
  unfold members, leave_all. simpl. rewrite lookup_fmap.
  destruct (rooms st !! k); simpl; [done|]. by rewrite empty_difference_L.
Qed.


Lemma disconnect_unfold c st : disconnect c st = on_disconnect c (leave_all c st).
Proof.
  unfold disconnect, bind, modify.
  by destruct (on_disconnect c (leave_all c st)) as [[st2 tr2] o2].
Qed.

End RoomFacts.


(** ** Viewers are subscribers in every reachable state *)
Section Invariant.
Variable E : engine.
Implicit Types (c k : jsstring) (st : state).

Lemma on_screen_data_state c k chunk now st :
  state_of (on_screen_data E c k chunk now st) = st.
Proof.
  run_broker.
  destruct (lookup_session k (activeSessions st)); [|case_bool_decide; [|done]];
    (destruct chunk; run_broker; try done;
     (destruct (get_field _ _) as [| | | |[|a d]|]; run_broker; try done;
      destruct (truthy_string _); run_broker; [|done];
      by destruct (recognize E _))).
Qed.

Lemma on_request_ocr_state c k imageData now st :
  state_of (on_request_ocr E c k imageData now st) = st.
Proof.
  run_broker.
  destruct (lookup_session k (activeSessions st)); [|case_bool_decide; [|done]];
    (destruct imageData; run_broker; try done;
     destruct (nth_error _ 1) as [[|a b]|]; run_broker; try done;
     by destruct (recognize E _)).
Qed.

Lemma subscribed_step st ev : subscribed st → subscribed (state_of (handle E ev st)).
Proof.
  intros Hsub. destruct ev as [c|c sid now|c sid|c sid chunk now|c sid img now|c]; simpl.
  - intros k s v Hs Hv. unfold connect, modify, state_of in *. simpl in *.
    rewrite members_join_room. specialize (Hsub k s v Hs Hv). case_decide; set_solver.
  - intros k s v. unfold on_create_session, bind, modify, act, state_of. simpl.
    rewrite lookup_set_session, members_join_room.
    destruct (decide (sid = k)) as [->|Hne].
    + intros [= <-]. simpl. by intros ?%elem_of_nil.
    + intros Hs Hv. apply (Hsub k s v Hs Hv).
  - unfold on_join_session, read_session, bind, get, modify, act, throw, state_of. simpl.
    destruct (lookup_session sid (activeSessions st)) as [s0|] eqn:Hs0; simpl;
      [|by case_bool_decide].
    intros k s v. simpl. rewrite lookup_update_session, members_join_room.
    destruct (decide (sid = k)) as [->|Hne].
    + rewrite Hs0. simpl. intros [= <-]. simpl.
      intros [Hv| ->%list_elem_of_singleton]%elem_of_app; [|set_solver].
      specialize (Hsub k s0 v Hs0 Hv). set_solver.
    + apply Hsub.
  - by rewrite on_screen_data_state.
  - by rewrite on_request_ocr_state.
  - rewrite disconnect_unfold. intros k s' v.
    unfold members. rewrite (proj1 (on_disconnect_lookup c k (leave_all c st))).
    rewrite (proj2 (on_disconnect_lookup c k (leave_all c st))).
    fold (members k (leave_all c st)). rewrite members_leave_all. simpl.
    destruct (lookup_session k (activeSessions st)) as [s|] eqn:Hs; simpl; [|done].
    unfold clean_or_drop. case_decide; [done|]. intros [= <-].
    intros [Hv Hne]%clean_viewers. specialize (Hsub k s v Hs Hv). set_solver.
Qed.

Lemma reachable_subscribed st : reachable E st → subscribed st.
Proof.
  induction 1 as [|st ev _ IH]; [|by apply subscribed_step].
  intros k s v. by simpl.
Qed.
End Invariant.


(** ** The [screen-data] handler *)
Lemma reachable_state_viewed : reachable engine0 state_viewed.
Proof. repeat apply reachable_step. apply reachable_initial. Qed.


Lemma read_session_own (k : jsstring) (tbl : list (jsstring * session)) (s : session) :
  lookup_session k tbl = Some s → read_session k tbl = Session s.
Proof. unfold read_session. by intros ->. Qed.

Lemma read_session_found (k : jsstring) (tbl : list (jsstring * session)) (s : session) :
  lookup_session k tbl = Some s → read_session k tbl ≠ Missing.
Proof. intros Hs. by rewrite (read_session_own k tbl s Hs). Qed.

Lemma read_session_Missing_or (k : jsstring) (tbl : list (jsstring * session)) :
  read_session k tbl = Missing ∨ read_session k tbl ≠ Missing.
Proof. destruct (read_session k tbl); [by right | by right | by left]. Qed.

Lemma read_session_Missing (k : jsstring) (tbl : list (jsstring * session)) :
  lookup_session k tbl = None → k ∉ object_prototype_keys →
  read_session k tbl = Missing.
Proof.
  intros Hs Hp. unfold read_session. rewrite Hs.
  by rewrite (bool_decide_eq_false_2 _ Hp).
Qed.

Lemma read_session_Inherited (k : jsstring) (tbl : list (jsstring * session)) :
  lookup_session k tbl = None → k ∈ object_prototype_keys →
  read_session k tbl = Inherited.
Proof.
  intros Hs Hp. unfold read_session. rewrite Hs.
  by rewrite (bool_decide_eq_true_2 _ Hp).
Qed.

Lemma screen_data_missing (E : engine) (st : state) (c sid : jsstring)
    (chunk : json) (now : Z) :
  read_session sid (activeSessions st) = Missing →
  on_screen_data E c sid chunk now st
  = (st, [Emit (ToSocket c) (js "error") (message_payload "Session not found")], inr tt).
Proof. intros Hs. unfold on_screen_data, bind, get, act. simpl. by rewrite Hs. Qed.

Lemma request_ocr_missing (E : engine) (st : state) (c sid : jsstring)
    (img : json) (now : Z) :
  read_session sid (activeSessions st) = Missing →
  on_request_ocr E c sid img now st
  = (st, [Emit (ToSocket c) (js "error") (message_payload "Session not found")], inr tt).
Proof. intros Hs. unfold on_request_ocr, bind, get, act. simpl. by rewrite Hs. Qed.

(** After the broadcast, the handler does one of five things. *)
Lemma screen_data_cases (E : engine) (st : state) (c sid : jsstring)
    (chunk : json) (now : Z) :
  read_session sid (activeSessions st) ≠ Missing →
  ∃ rest,
    trace_of (on_screen_data E c sid chunk now st)
    = Emit (ToRoomExcept sid c) (js "screen-data") (JObj [(js "chunk", chunk)]) :: rest
    ∧ (rest = []
       ∨ rest = [Emit (ToSocket c) (js "error") (message_payload "Invalid image data")]
       ∨ rest = [Emit (ToSocket c) (js "error") (message_payload "Failed to process OCR")]
       ∨ (∃ b e, recognize E b = inl e
            ∧ rest = [Recognize b;
                      Emit (ToSocket c) (js "error") (message_payload "Failed to process OCR")])
       ∨ (∃ b d, recognize E b = inr d
            ∧ rest = [Recognize b;
                      Emit (ToSocket c) (js "ocr-result") (ocr_result sid now (text d))])).
Proof.
  intros Hr. unfold read_session in Hr. run_broker.
  destruct (lookup_session sid (activeSessions st)); [|case_bool_decide; [|done]];
    (destruct chunk; run_broker; try (eexists; split; [reflexivity|]; tauto);
     (destruct (get_field _ _) as [| | | |[|a d]|]; run_broker;
      try (eexists; split; [reflexivity|]; tauto);
      destruct (truthy_string _); run_broker;
      [|eexists; split; [reflexivity|]; tauto];
      destruct (recognize E _) as [e|d'] eqn:Hrec;
      (eexists; split; [reflexivity|]);
      [right; right; right; left | right; right; right; right]; by eexists _, _)).
Qed.


(** C1. For a [screen-data] message on a session of the table, the first
    action is the emit of the raw chunk to the room of the session without
    the sender: it reaches every other member of the room, and in a state
    that the server can reach these include every viewer of the session. When the chunk carries a string whose selected part is not
    empty, the engine is called next, on the decoding of that part, and the
    trace ends with the answer to the sender alone: an [error] event when the
    engine fails, the [ocr-result] when it succeeds. In every case what
    follows the broadcast is a call of the engine on the decoded payload of
    the chunk or an emit to the sender alone, and the table and the rooms are
    as before, the session still in the table. *)
Theorem screen_data_broadcast_first (E : engine) (st : state) (c sid : jsstring)
    (s : session) (chunk : json) (now : Z) :
  lookup_session sid (activeSessions st) = Some s →
  (∃ rest,
     trace_of (on_screen_data E c sid chunk now st)
     = Emit (ToRoomExcept sid c) (js "screen-data") (JObj [(js "chunk", chunk)]) :: rest
     ∧ Forall (λ a, (∃ b, a = Recognize b) ∨ ∃ ev p, a = Emit (ToSocket c) ev p) rest
     ∧ (∀ b, Recognize b ∈ rest →
          ∃ d, get_field (js "data") chunk = JStr d
               ∧ b = Buffer_from_base64 E (screen_image_data d)))
  ∧ (∀ d, get_field (js "data") chunk = JStr d → screen_image_data d ≠ [] →
       trace_of (on_screen_data E c sid chunk now st)
       = [Emit (ToRoomExcept sid c) (js "screen-data") (JObj [(js "chunk", chunk)]);
          Recognize (Buffer_from_base64 E (screen_image_data d));
          match recognize E (Buffer_from_base64 E (screen_image_data d)) with
          | inl _ =>
              Emit (ToSocket c) (js "error") (message_payload "Failed to process OCR")
          | inr r =>
              Emit (ToSocket c) (js "ocr-result") (ocr_result sid now (text r))
          end])
  ∧ (∀ v, v ∈ members sid st → v ≠ c → v ∈ recipients st (ToRoomExcept sid c))
  ∧ (reachable E st →
     ∀ v, v ∈ viewers s → v ≠ c → v ∈ recipients st (ToRoomExcept sid c))
  ∧ state_of (on_screen_data E c sid chunk now st) = st
  ∧ lookup_session sid (activeSessions (state_of (on_screen_data E c sid chunk now st)))
    = Some s.
Proof.
  intros Hs.
  assert (Hin : ∀ v, v ∈ members sid st → v ≠ c → v ∈ recipients st (ToRoomExcept sid c)).
  { intros v Hv Hne. simpl. apply elem_of_difference. split; [done|].
    by intros ->%elem_of_singleton. }
  split; [|split; [|split; [exact Hin|split; [|split]]]].
  - run_broker. rewrite Hs.
    destruct chunk; run_broker;
      try (eexists; split; [reflexivity|]; split;
           [repeat (apply Forall_cons_2; [right; by eexists _, _|]); apply Forall_nil_2
           |intros ? Hb; emitted_exit Hb]);
      (destruct (get_field (js "data") _) as [| | | |[|a d]|] eqn:Hd; run_broker;
       try (eexists; split; [reflexivity|]; split;
            [apply Forall_nil_2 | intros ? Hb; emitted_exit Hb]);
       destruct (truthy_string (screen_image_data _)); run_broker;
       [destruct (recognize E _) as [e|r]; (eexists; split; [reflexivity|]; split;
          [apply Forall_cons_2; [left; by eexists|];
           apply Forall_cons_2; [right; by eexists _, _|]; apply Forall_nil_2
          |intros ? [[= ->]|Hb]%elem_of_cons; [by eexists | emitted_exit Hb]])
       |eexists; split; [reflexivity|]; split;
          [apply Forall_cons_2; [right; by eexists _, _|]; apply Forall_nil_2
          |intros ? Hb; emitted_exit Hb]]).
  - intros d Hd Hp. run_broker. rewrite Hs.
    destruct chunk; try (cbv [get_field] in Hd; discriminate Hd);
      run_broker; rewrite Hd.
    destruct d as [|a d]; [by destruct Hp|].
    destruct (screen_image_data (a :: d)) as [|x y] eqn:Himg; [done|].
    run_broker. cbv [truthy_string].
    by destruct (recognize E _).
  - intros Hreach v Hv Hne. apply Hin; [|done].
    by apply (reachable_subscribed E st Hreach sid s v).
  - apply on_screen_data_state.
  - by rewrite on_screen_data_state.
Qed.


(** C1 for the host [X] of [S], with [Y] in the room. *)
Lemma screen_data_broadcast_first_witness :
  lookup_session session_S (activeSessions state_viewed)
    = Some {| id := session_S; host := host_X; viewers := [viewer_Y]; startTime := 5 |}
  ∧ trace_of (on_screen_data engine0 host_X session_S
                (JObj [(js "data", JStr (js "data:image/png;base64,AAAA"))]) 9
                state_viewed)
    = [Emit (ToRoomExcept session_S host_X) (js "screen-data")
         (JObj [(js "chunk", JObj [(js "data", JStr (js "data:image/png;base64,AAAA"))])]);
       Recognize (Buffer_from_base64 engine0 (js "AAAA"));
       Emit (ToSocket host_X) (js "ocr-result")
         (ocr_result session_S 9 (js " HELLO  world "))]
  ∧ viewer_Y ∈ recipients state_viewed (ToRoomExcept session_S host_X)
  ∧ state_of (on_screen_data engine0 host_X session_S
                (JObj [(js "data", JStr (js "data:image/png;base64,AAAA"))]) 9
                state_viewed) = state_viewed.
Proof.
  assert (Hs : lookup_session session_S (activeSessions state_viewed)
               = Some {| id := session_S; host := host_X; viewers := [viewer_Y];
                         startTime := 5 |}) by reflexivity.
  split; [exact Hs|].
  destruct (screen_data_broadcast_first engine0 state_viewed host_X session_S _
              (JObj [(js "data", JStr (js "data:image/png;base64,AAAA"))]) 9 Hs)
    as (_ & Htr & _ & Hrcp & Hst & _).
  split; [|split; [|exact Hst]].
  - apply (Htr (js "data:image/png;base64,AAAA")); [reflexivity | by vm_compute].
  - apply (Hrcp reachable_state_viewed); [apply list_elem_of_here | by vm_compute].
Defined.


(** C10. When the chunk of a [screen-data] message on a session of the table
    has no [data] field, or one that is not a string, the broadcast of the
    chunk is the only action: no engine call, no [ocr-result], no [error]. *)
Theorem screen_data_without_payload (E : engine) (st : state) (c sid : jsstring)
    (s : session) (chunk : json) (now : Z) :
  lookup_session sid (activeSessions st) = Some s →
  chunk ≠ JUndefined → chunk ≠ JNull →
  is_string (get_field (js "data") chunk) = false →
  trace_of (on_screen_data E c sid chunk now st)
  = [Emit (ToRoomExcept sid c) (js "screen-data") (JObj [(js "chunk", chunk)])].
Proof.
  intros Hs Hu Hn Hdata. run_broker. rewrite Hs.
  destruct chunk; run_broker; try done;
    by destruct (get_field _ _).
Qed.


(** C10 for a chunk whose [data] is a number. *)
Lemma screen_data_without_payload_witness :
  lookup_session session_S (activeSessions state_viewed)
    = Some {| id := session_S; host := host_X; viewers := [viewer_Y]; startTime := 5 |}
  ∧ trace_of (on_screen_data engine0 host_X session_S
                (JObj [(js "kind", JStr (js "full")); (js "data", JNum 7)]) 9 state_viewed)
    = [Emit (ToRoomExcept session_S host_X) (js "screen-data")
         (JObj [(js "chunk", JObj [(js "kind", JStr (js "full")); (js "data", JNum 7)])])].
Proof.
  assert (Hs : lookup_session session_S (activeSessions state_viewed)
               = Some {| id := session_S; host := host_X; viewers := [viewer_Y];
                         startTime := 5 |}) by reflexivity.
  split; [exact Hs|].
  apply (screen_data_without_payload engine0 state_viewed host_X session_S _ _ 9 Hs);
    [discriminate | discriminate | reflexivity].
Defined.


(** ** The [join-session] handler *)

(** C2 as it is stated fails: after two [join-session] calls of the same
    viewer the viewer list holds its id twice. *)
Lemma join_twice_duplicates :
  ∃ s, lookup_session session_S
         (activeSessions (state_of (times 2 (on_join_session viewer_Y session_S) state_hosted)))
       = Some s
     ∧ viewers s = [viewer_Y; viewer_Y]
     ∧ length (viewers s) = 2.
Proof. eexists. split; [reflexivity|]. split; reflexivity. Qed.

Lemma on_join_session_found (c sid : jsstring) (s : session) (st : state) :
  lookup_session sid (activeSessions st) = Some s →
  on_join_session c sid st
  = (join_room c sid (with_table (update_session sid (push_viewer c)) st),
     [Emit (ToSocket c) (js "session-joined") (JObj [(js "sessionId", JStr sid)]);
      Emit (ToRoom (host s)) (js "viewer-joined") (JObj [(js "viewerId", JStr c)])],
     inr tt).
Proof. intros Hs. run_broker. by rewrite Hs. Qed.


(** C2, amended. Every [join-session] call on a session of the table appends
    the caller's id to the viewer list, so that [n] calls of the same viewer
    leave [n] more occurrences of its id; none of the calls is answered with
    an error, and the room of the session, which is a set, holds the viewer
    and keeps its members. *)
Theorem join_session_appends (n : nat) (c sid : jsstring) (s : session) (st : state) :
  lookup_session sid (activeSessions st) = Some s →
  lookup_session sid (activeSessions (state_of (times n (on_join_session c sid) st)))
    = Some (with_viewers (viewers s ++ replicate n c) s)
  ∧ Forall (λ a, ¬ is_error a) (trace_of (times n (on_join_session c sid) st))
  ∧ (0 < n → c ∈ members sid (state_of (times n (on_join_session c sid) st)))
  ∧ ∀ v, v ∈ members sid st →
         v ∈ members sid (state_of (times n (on_join_session c sid) st)).
Proof.
  revert s st. induction n as [|n IH]; intros s st Hs.
  - simpl. rewrite app_nil_r. split; [by destruct s|]. split; [constructor|].
    split; [lia | done].
  - pose (st1 := join_room c sid (with_table (update_session sid (push_viewer c)) st)).
    assert (Hs1 : lookup_session sid (activeSessions st1) = Some (push_viewer c s)).
    { simpl. rewrite lookup_update_session, decide_True, Hs by done. done. }
    destruct (IH _ _ Hs1) as (Hl & Htr & _ & Hmem).
    assert (Hrun : times (S n) (on_join_session c sid) st
                   = (state_of (times n (on_join_session c sid) st1),
                      [Emit (ToSocket c) (js "session-joined") (JObj [(js "sessionId", JStr sid)]);
                       Emit (ToRoom (host s)) (js "viewer-joined") (JObj [(js "viewerId", JStr c)])]
                      ++ trace_of (times n (on_join_session c sid) st1),
                      outcome_of (times n (on_join_session c sid) st1))).
    { simpl. unfold bind at 1. rewrite (on_join_session_found c sid s st Hs).
      fold st1. by destruct (times n (on_join_session c sid) st1) as [[st2 tr2] o2]. }
    assert (Hst : state_of (times (S n) (on_join_session c sid) st)
                  = state_of (times n (on_join_session c sid) st1))
      by by rewrite Hrun.
    assert (Htr' : trace_of (times (S n) (on_join_session c sid) st)
                   = [Emit (ToSocket c) (js "session-joined") (JObj [(js "sessionId", JStr sid)]);
                      Emit (ToRoom (host s)) (js "viewer-joined") (JObj [(js "viewerId", JStr c)])]
                     ++ trace_of (times n (on_join_session c sid) st1))
      by by rewrite Hrun.
    rewrite Hst, Htr'. clear Hrun Hst Htr'.
    assert (Hc : c ∈ members sid st1).
    { unfold st1. rewrite members_join_room, decide_True by done.
      apply elem_of_union_l. by apply elem_of_singleton. }
    split; [|split; [|split]].
    + rewrite Hl. unfold push_viewer, with_viewers. simpl.
      by rewrite <- app_assoc.
    + apply Forall_cons_2; [intros (tg & p & [=])|].
      apply Forall_cons_2; [intros (tg & p & [=])|]. exact Htr.
    + intros _. by apply Hmem.
    + intros v Hv. apply Hmem. unfold st1.
      rewrite members_join_room, decide_True by done. by apply elem_of_union_r.
Qed.


(** C2, amended, for three calls of [Y] on [S]. *)
Lemma join_session_appends_witness :
  lookup_session session_S (activeSessions state_hosted)
    = Some {| id := session_S; host := host_X; viewers := []; startTime := 5 |}
  ∧ lookup_session session_S
      (activeSessions (state_of (times 3 (on_join_session viewer_Y session_S) state_hosted)))
    = Some {| id := session_S; host := host_X;
              viewers := [viewer_Y; viewer_Y; viewer_Y]; startTime := 5 |}.
Proof.
  assert (Hs : lookup_session session_S (activeSessions state_hosted)
               = Some {| id := session_S; host := host_X; viewers := []; startTime := 5 |})
    by reflexivity.
  split; [exact Hs|].
  exact (proj1 (join_session_appends 3 viewer_Y session_S _ state_hosted Hs)).
Defined.


(** ** The [request-ocr] handler *)

(** C6. On a session of the table, [request-ocr] answers a raw base64 string
    with the [error] event "Invalid image data" and does not call the engine,
    while it serves the same payload behind a data-URL prefix, and while the
    [screen-data] handler serves the raw string. *)
Theorem request_ocr_rejects_raw_base64 :
  trace_of (on_request_ocr engine0 viewer_Y session_S (JStr (js "aGVsbG8=")) 9 state_viewed)
  = [Emit (ToSocket viewer_Y) (js "error") (message_payload "Invalid image data")]
  ∧ trace_of (on_request_ocr engine0 viewer_Y session_S
                (JStr (js "data:image/png;base64,aGVsbG8=")) 9 state_viewed)
    = [Recognize (Buffer_from_base64 engine0 (js "aGVsbG8="));
       Emit (ToSocket viewer_Y) (js "ocr-result")
         (ocr_result session_S 9 (js " HELLO  world "))]
  ∧ trace_of (on_screen_data engine0 viewer_Y session_S
                (JObj [(js "data", JStr (js "aGVsbG8="))]) 9 state_viewed)
    = [Emit (ToRoomExcept session_S viewer_Y) (js "screen-data")
         (JObj [(js "chunk", JObj [(js "data", JStr (js "aGVsbG8="))])]);
       Recognize (Buffer_from_base64 engine0 (js "aGVsbG8="));
       Emit (ToSocket viewer_Y) (js "ocr-result")
         (ocr_result session_S 9 (js " HELLO  world "))].
Proof. split; [reflexivity|]. split; reflexivity. Qed.


(** ** The [disconnect] handler *)
Example viewer_disconnect_ex :
  trace_of (disconnect viewer_Y state_viewed)
  = [Emit (ToRoom host_X) (js "viewer-left") (JObj [(js "viewerId", JStr viewer_Y)])]
  ∧ lookup_session session_S (activeSessions (state_of (disconnect viewer_Y state_viewed)))
    = Some {| id := session_S; host := host_X; viewers := []; startTime := 5 |}.
Proof. split; reflexivity. Qed.

Example host_disconnect_ex :
  trace_of (disconnect host_X state_viewed)
  = [Emit (ToRoom session_S) (js "session-ended") (message_payload "Host has disconnected");
     Delete session_S]
  ∧ activeSessions (state_of (disconnect host_X state_viewed)) = [].
Proof. split; reflexivity. Qed.

Section DisconnectTwice.
Implicit Types (c : jsstring) (st : state).

Lemma on_disconnect_trace c st :
  trace_of (on_disconnect c st)
  = trace_of (disconnect_loop c (map fst (activeSessions st)) st).
Proof.
  unfold on_disconnect, bind, get, trace_of. simpl.
  by destruct (disconnect_loop c (map fst (activeSessions st)) st) as [[st2 tr2] o2].
Qed.

End DisconnectTwice.


(** ** Envelopes *)

(** C9 as it is stated fails: the answer of [join-session] for a session
    that is not in the table is an [error] event whose payload has neither a
    [success] field nor a [timestamp], and the envelope of [log_activity] has
    no [timestamp] field. *)
Lemma envelope_not_uniform :
  trace_of (on_join_session viewer_Y session_S initial)
  = [Emit (ToSocket viewer_Y) (js "error") (JObj [(js "message", JStr (js "Session not found"))])]
  ∧ has_field (js "success") (JObj [(js "message", JStr (js "Session not found"))]) = false
  ∧ has_field (js "timestamp") (JObj [(js "message", JStr (js "Session not found"))]) = false
  ∧ uniform_envelope_spec (JObj [(js "message", JStr (js "Session not found"))]) = false
  ∧ ∃ envelope,
      outcome_of (log_activity clock0 (js "test") None None None (fresh 0)) = inr envelope
      ∧ has_field (js "timestamp") envelope = false
      ∧ uniform_envelope_spec envelope = false.
Proof.
  repeat (split; [reflexivity|]). eexists. repeat split; reflexivity.
Qed.

Lemma disconnect_loop_no_error (c : jsstring) (ks : list jsstring) (st : state) :
  Forall (λ a, ¬ is_error a) (trace_of (disconnect_loop c ks st)).
Proof.
  revert st. induction ks as [|k ks IH]; intros st; [constructor|].
  rewrite disconnect_loop_trace. apply Forall_app. split; [|apply IH].
  unfold disconnect_body, bind, get, modify, act, ret, trace_of. simpl.
  destruct (lookup_session k (activeSessions st)) as [s|]; simpl; [|constructor].
  destruct (decide (host s = c)); simpl.
  - repeat apply Forall_cons_2; try apply Forall_nil_2; by intros (tg & p & [=]).
  - destruct (includes c (viewers s)); simpl;
      repeat apply Forall_cons_2; try apply Forall_nil_2; by intros (tg & p & [=]).
Qed.

Lemma duplex_message_payload (E : engine) (ev : event) (st : state) (a : action) :
  a ∈ trace_of (handle E ev st) → is_error a →
  ∃ c msg, a = Emit (ToSocket c) (js "error") (JObj [(js "message", JStr msg)]).
Proof.
  intros Hin Herr.
  destruct ev as [c|c sid now|c sid|c sid chunk now|c sid img now|c]; simpl in Hin.
  - by apply elem_of_nil in Hin.
  - apply list_elem_of_singleton in Hin as ->. by destruct Herr as (tg & p & [=]).
  - revert Hin. run_broker.
    destruct (lookup_session sid (activeSessions st)) as [s|]; [|case_bool_decide].
    + intros [->| ->%list_elem_of_singleton]%elem_of_cons;
        by destruct Herr as (tg & p & [=]).
    + by intros ?%elem_of_nil.
    + intros ->%list_elem_of_singleton. by eexists _, _.
  - destruct (read_session_Missing_or sid (activeSessions st)) as [Hs|Hs].
    2: { destruct (screen_data_cases E st c sid chunk now Hs) as (rest & Htr & Hrest).
      rewrite Htr in Hin.
      apply elem_of_cons in Hin as [->|Hin]; [by destruct Herr as (tg & p & [=])|].
      destruct Hrest as [->|[->|[->|[(b & e & _ & ->)|(b & d & _ & ->)]]]].
      * by apply elem_of_nil in Hin.
      * apply list_elem_of_singleton in Hin as ->. by eexists _, _.
      * apply list_elem_of_singleton in Hin as ->. by eexists _, _.
      * apply elem_of_cons in Hin as [->|Hin]; [by destruct Herr as (tg & p & [=])|].
        apply list_elem_of_singleton in Hin as ->. by eexists _, _.
      * apply elem_of_cons in Hin as [->|Hin]; [by destruct Herr as (tg & p & [=])|].
        apply list_elem_of_singleton in Hin as ->. by destruct Herr as (tg & p & [=]). }
    revert Hin. unfold on_screen_data, bind, get, act, trace_of. simpl. rewrite Hs.
    intros ->%list_elem_of_singleton. by eexists _, _.
  - revert Hin. run_broker.
    destruct (lookup_session sid (activeSessions st)) as [s|];
      [|case_bool_decide; [|intros ->%list_elem_of_singleton; by eexists _, _]];
      (destruct img; run_broker;
       try (intros ->%list_elem_of_singleton; by eexists _, _);
       destruct (nth_error _ 1) as [[|x b]|]; run_broker;
       try (intros ->%list_elem_of_singleton; by eexists _, _);
       destruct (recognize E _); run_broker;
       (intros [->|Hin]%elem_of_cons; [by destruct Herr as (tg & p & [=])|];
        apply list_elem_of_singleton in Hin as ->);
       [by eexists _, _ | by destruct Herr as (tg & p & [=])]).
  - rewrite disconnect_unfold, on_disconnect_trace in Hin.
    pose proof (disconnect_loop_no_error c
                  (map fst (activeSessions (leave_all c st))) (leave_all c st)) as Hno.
    rewrite Forall_forall in Hno. by destruct (Hno a Hin).
Qed.


(** C9, amended. The envelopes of [screen_capture] and [extract_text] carry
    a [success] boolean and a [timestamp], and a failure carries
    [success: false], an [error] string and the [timestamp]. The envelope of
    [log_activity] has [success: true] and [logged_at] in place of a
    [timestamp]. On the duplex transport a failure is an [error] event to one
    socket whose payload is a [message] string and nothing else. *)
Theorem tool_envelopes (E : engine) (clk : clock) (m : metrics) :
  (∃ envelope, outcome_of (screen_capture clk m) = inr envelope
     ∧ uniform_envelope_spec envelope = true)
  ∧ (∀ imageData, ∃ envelope,
       outcome_of (extract_text E clk imageData m) = inr envelope
       ∧ uniform_envelope_spec envelope = true
       ∧ (get_field (js "success") envelope = JBool false →
          ∃ msg, get_field (js "error") envelope = JStr msg
               ∧ get_field (js "timestamp") envelope = JStr (iso clk)))
  ∧ (∀ description confidence screen_text_length processing_time, ∃ envelope,
       outcome_of (log_activity clk description confidence screen_text_length
                     processing_time m) = inr envelope
       ∧ get_field (js "success") envelope = JBool true
       ∧ get_field (js "logged_at") envelope = JStr (iso clk)
       ∧ has_field (js "timestamp") envelope = false)
  ∧ (∀ ev st a, a ∈ trace_of (handle E ev st) → is_error a →
       ∃ c msg, a = Emit (ToSocket c) (js "error") (JObj [(js "message", JStr msg)])).
Proof.
  split; [|split; [|split]].
  - eexists. split; reflexivity.
  - intros imageData. run_comp.
    destruct (truthy_string (base64Data_of imageData)); simpl.
    + destruct (recognize E _) as [e|d]; eexists; (split; [reflexivity|]);
        (split; [reflexivity|]); [intros _; by eexists | intros [=]].
    + eexists. split; [reflexivity|]. split; [reflexivity|]. intros _. by eexists.
  - intros. eexists. repeat split; reflexivity.
  - apply duplex_message_payload.
Qed.

(** * Further facts *)

(** ** Payload selection *)

Lemma split_char_first_segment (s : jsstring) :
  head (split_char comma s) = Some (first_segment s).
Proof.
  induction s as [|c r IH]; simpl; [done|].
  destruct (c =? comma)%N; [done|].
  destruct (split_char comma r) as [|t ts]; [done|].
  simpl in *. by injection IH as ->.
Qed.

Lemma split_char_second (d : jsstring) :
  nth_error (split_char comma d) 1 = first_segment <$> after_first_comma d.
Proof.
  destruct (after_first_comma d) as [p|] eqn:Hp; simpl.
  - destruct (split_char_after d p Hp) as (t & ->). simpl.
    pose proof (split_char_first_segment p) as Hh.
    by destruct (split_char comma p).
  - by rewrite (split_char_no_comma d Hp).
Qed.

Lemma split_char_length (d : jsstring) :
  (1 <? length (split_char comma d))
  = match after_first_comma d with Some _ => true | None => false end.
Proof.
  destruct (after_first_comma d) as [p|] eqn:Hp.
  - destruct (split_char_after d p Hp) as (t & ->).
    destruct (split_char_cons comma p) as (t' & ts & ->). done.
  - by rewrite (split_char_no_comma d Hp).
Qed.

Lemma screen_image_data_selected (d : jsstring) :
  screen_image_data d = selected_payload d.
Proof.
  unfold screen_image_data, selected_payload.
  rewrite split_char_length.
  pose proof (split_char_second d) as H2.
  destruct (after_first_comma d) as [p|] eqn:Hp; simpl in *.
  - destruct (split_char comma d) as [|t [|t2 ts]]; simpl in *; congruence.
  - by rewrite (split_char_no_comma d Hp).
Qed.

Lemma base64Data_of_selected (d : jsstring) :
  base64Data_of d = selected_payload d.
Proof.
  unfold base64Data_of, selected_payload.
  rewrite includes_after_first_comma, split_char_second.
  destruct (after_first_comma d) as [p|]; simpl; [|done].
  by destruct (first_segment p).
Qed.

(** X1. [extract_text] and the [screen-data] handler decode the same part of
    their input: the text between the first and the second comma when the
    input has a comma, the whole input otherwise; what follows a second comma
    is dropped. The [request-ocr] handler decodes that same part when the
    input has a comma, and rejects an input without a comma as
    "Invalid image data", the engine not called. *)
Theorem payload_selection (E : engine) (clk : clock) (c sid : jsstring) (s : session)
    (now : Z) (st : state) (m : metrics) (d : jsstring) :
  lookup_session sid (activeSessions st) = Some s →
  selected_payload d ≠ [] →
  trace_of (extract_text E clk d m)
    = [Recognize (Buffer_from_base64 E (selected_payload d))]
  ∧ (∃ reply,
       trace_of (on_screen_data E c sid (JObj [(js "data", JStr d)]) now st)
       = [Emit (ToRoomExcept sid c) (js "screen-data")
            (JObj [(js "chunk", JObj [(js "data", JStr d)])]);
          Recognize (Buffer_from_base64 E (selected_payload d)); reply])
  ∧ (after_first_comma d ≠ None →
     ∃ reply,
       trace_of (on_request_ocr E c sid (JStr d) now st)
       = [Recognize (Buffer_from_base64 E (selected_payload d)); reply])
  ∧ (after_first_comma d = None →
     trace_of (on_request_ocr E c sid (JStr d) now st)
     = [Emit (ToSocket c) (js "error") (message_payload "Invalid image data")]).
Proof.
  intros Hs Hsel. split; [|split; [|split]].
  - run_comp. rewrite base64Data_of_selected.
    destruct (selected_payload d) eqn:Hp; [done|]. simpl.
    by destruct (recognize E _).
  - run_broker. rewrite Hs.
    change (get_field (js "data") (JObj [(js "data", JStr d)])) with (JStr d).
    destruct d as [|a d']; [done|]. run_broker.
    rewrite screen_image_data_selected.
    destruct (selected_payload (a :: d')) eqn:Hp; [done|]. run_broker. simpl.
    destruct (recognize E _); by eexists.
  - intros Hcomma. run_broker. rewrite Hs, split_char_second.
    unfold selected_payload in *.
    destruct (after_first_comma d) as [p|]; [|done]. simpl.
    destruct (first_segment p) eqn:Hp; [done|]. run_broker.
    destruct (recognize E _); by eexists.
  - intros Hnone. run_broker. by rewrite Hs, split_char_second, Hnone.
Qed.

(** X1 on a run of the sample sessions and tools. *)
Lemma payload_selection_witness :
  lookup_session session_S (activeSessions state_viewed)
    = Some {| id := session_S; host := host_X; viewers := [viewer_Y]; startTime := 5 |}
  ∧ selected_payload (js "data:image/png;base64,AAAA,tail") = js "AAAA"
  ∧ trace_of (extract_text engine0 clock0 (js "data:image/png;base64,AAAA,tail") (fresh 0))
    = [Recognize (Buffer_from_base64 engine0 (js "AAAA"))].
Proof.
  assert (Hs : lookup_session session_S (activeSessions state_viewed)
               = Some {| id := session_S; host := host_X; viewers := [viewer_Y];
                         startTime := 5 |}) by reflexivity.
  split; [exact Hs|]. split; [reflexivity|].
  refine (proj1 (payload_selection engine0 clock0 host_X session_S _ 9 state_viewed
                   (fresh 0) (js "data:image/png;base64,AAAA,tail") Hs _)).
  by vm_compute.
Defined.

(** ** The session table under the handlers *)

Section KeyFacts.
Implicit Types (c k : jsstring) (s : session) (tbl pre : list (jsstring * session)).

Lemma lookup_session_None k tbl :
  lookup_session k tbl = None ↔ k ∉ map fst tbl.
Proof.
  induction tbl as [|[k0 s0] r IH]; simpl.
  - split; [intros _; apply not_elem_of_nil | done].
  - rewrite not_elem_of_cons. case_decide as Hk.
    + split; [done|]. intros [Hne _]. by destruct Hne.
    + rewrite IH. split; [intros Hr; split; [congruence | done] | by intros [_ Hr]].
Qed.

Lemma lookup_session_app k pre tbl :
  k ∉ map fst pre → lookup_session k (pre ++ tbl) = lookup_session k tbl.
Proof.
  induction pre as [|[k0 s0] r IH]; simpl; [done|].
  rewrite not_elem_of_cons. intros [Hne Hr]. by rewrite decide_False, IH.
Qed.

Lemma delete_session_absent k tbl :
  k ∉ map fst tbl → delete_session k tbl = tbl.
Proof.
  unfold delete_session. induction tbl as [|[k0 s0] r IH]; simpl; [done|].
  rewrite not_elem_of_cons. intros [Hne Hr].
  rewrite filter_cons_True by (simpl; congruence). by rewrite IH.
Qed.

Lemma update_session_absent k f tbl :
  k ∉ map fst tbl → update_session k f tbl = tbl.
Proof.
  unfold update_session. induction tbl as [|[k0 s0] r IH]; simpl; [done|].
  rewrite not_elem_of_cons. intros [Hne Hr].
  rewrite decide_False by congruence. by rewrite IH.
Qed.

Lemma keys_update_session k f tbl :
  map fst (update_session k f tbl) = map fst tbl.
Proof.
  unfold update_session. induction tbl as [|[k0 s0] r IH]; simpl; [done|].
  rewrite IH. by case_decide.
Qed.

Lemma keys_set_session k s tbl :
  map fst (set_session k s tbl)
  = if bool_decide (k ∈ map fst tbl) then map fst tbl else map fst tbl ++ [k].
Proof.
  induction tbl as [|[k0 s0] r IH]; cbn [map fst set_session].
  - rewrite bool_decide_eq_false_2; [done | apply not_elem_of_nil].
  - destruct (decide (k0 = k)) as [->|Hne]; cbn [map fst].
    + rewrite bool_decide_eq_true_2; [done | apply list_elem_of_here].
    + rewrite IH. case_bool_decide as Hin.
      * rewrite bool_decide_eq_true_2; [done | by apply list_elem_of_further].
      * rewrite bool_decide_eq_false_2; [done|].
        rewrite not_elem_of_cons. split; [congruence | done].
Qed.

Lemma keys_swept c tbl :
  map fst (swept c tbl) = map fst (filter (λ e, host e.2 ≠ c) tbl).
Proof.
  unfold swept. induction tbl as [|[k0 s0] r IH]; simpl; [done|].
  destruct (decide (host s0 = c)) as [Hh|Hh]; simpl.
  - rewrite filter_cons_False by (simpl; tauto). exact IH.
  - rewrite filter_cons_True by done. simpl. by rewrite IH.
Qed.

Lemma keys_swept_subset c tbl k :
  k ∈ map fst (swept c tbl) → k ∈ map fst tbl.
Proof.
  rewrite keys_swept. intros (e & -> & He)%list_elem_of_fmap.
  apply list_elem_of_filter in He as [_ He]. apply list_elem_of_fmap. by exists e.
Qed.

Lemma keys_swept_NoDup c tbl :
  NoDup (map fst tbl) → NoDup (map fst (swept c tbl)).
Proof.
  induction tbl as [|[k0 s0] r IH]; simpl; [done|].
  intros [Hk Hr]%NoDup_cons. unfold swept. simpl. fold (swept c r).
  destruct (decide (host s0 = c)); simpl; [by apply IH|].
  apply NoDup_cons. split; [|by apply IH].
  intros Hin. apply Hk. by apply (keys_swept_subset c).
Qed.
End KeyFacts.

Section SweepFacts.
Implicit Types (c k : jsstring) (s : session) (tbl pre rest : list (jsstring * session)).

Lemma without_absent c (vs : list jsstring) : c ∉ vs → without c vs = vs.
Proof.
  unfold without. induction vs as [|v vs IH]; [done|].
  rewrite not_elem_of_cons. intros [Hne Hvs].
  rewrite filter_cons_True by congruence. by rewrite IH.
Qed.

Lemma clean_fields c s :
  id (clean c s) = id s ∧ host (clean c s) = host s
  ∧ startTime (clean c s) = startTime s
  ∧ viewers (clean c s) = without c (viewers s).
Proof.
  unfold clean, includes. case_bool_decide as Hc; simpl; [done|].
  by rewrite without_absent.
Qed.

Lemma disconnect_loop_sweep c pre rest (rms : gmap (list N) (gset (list N))) :
  NoDup (map fst (pre ++ rest)) →
  disconnect_loop c (map fst rest) {| activeSessions := pre ++ rest; rooms := rms |}
  = ({| activeSessions := pre ++ swept c rest; rooms := rms |},
     sweep_trace c rest, inr tt).
Proof.
  revert pre. induction rest as [|[k s] rest IH]; intros pre Hnd.
  { simpl. by rewrite app_nil_r. }
  assert (Hpre : (k ∉ map fst pre) ∧ (k ∉ map fst rest)).
  { rewrite map_app in Hnd. apply NoDup_app in Hnd as (_ & Hdis & Hr).
    simpl in Hr. apply NoDup_cons in Hr as [Hk _]. split; [|done].
    intros Hin. apply (Hdis k Hin). apply list_elem_of_here. }
  destruct Hpre as [Hkpre Hkrest].
  assert (Hl : lookup_session k (pre ++ (k, s) :: rest) = Some s).
  { rewrite lookup_session_app by done. simpl. by rewrite decide_True. }
  change (map fst ((k, s) :: rest)) with (k :: map fst rest).
  rewrite disconnect_loop_cons.
  unfold disconnect_body, bind, get, modify, act, ret. simpl. rewrite Hl.
  unfold swept, sweep_trace. simpl. fold (swept c rest). fold (sweep_trace c rest).
  destruct (decide (host s = c)) as [Hh|Hh]; simpl.
  - unfold state_of, trace_of, outcome_of, with_table. simpl.
    unfold delete_session. rewrite filter_app, filter_cons_False by (simpl; tauto).
    fold (delete_session k pre). fold (delete_session k rest).
    rewrite !delete_session_absent by done.
    rewrite IH; [done|].
    rewrite map_app in *. apply NoDup_app in Hnd as (Hp & Hdis & Hr).
    apply NoDup_app. split; [done|]. split.
    + intros x Hx Hx'. apply (Hdis x Hx). by apply list_elem_of_further.
    + simpl in Hr. by apply NoDup_cons in Hr as [_ Hr].
  - assert (Hnd' : NoDup (map fst ((pre ++ [(k, clean c s)]) ++ rest))).
    { rewrite <- app_assoc. simpl. rewrite map_app in *. simpl in *. done. }
    destruct (includes c (viewers s)) eqn:Hi; simpl;
      unfold state_of, trace_of, outcome_of, with_table; simpl.
    + unfold update_session. rewrite map_app. simpl.
      rewrite decide_True by done.
      fold (update_session k (λ s0, with_viewers (filter (λ v, v ≠ c) (viewers s0)) s0) pre).
      fold (update_session k (λ s0, with_viewers (filter (λ v, v ≠ c) (viewers s0)) s0) rest).
      rewrite !update_session_absent by done.
      assert (Hclean : with_viewers (filter (λ v, v ≠ c) (viewers s)) s = clean c s)
        by (unfold clean; by rewrite Hi).
      rewrite Hclean.
      change (pre ++ (k, clean c s) :: rest) with (pre ++ [(k, clean c s)] ++ rest).
      rewrite app_assoc, (IH _ Hnd'). by rewrite <- app_assoc.
    + assert (Hclean : s = clean c s) by (unfold clean; by rewrite Hi).
      assert (Htbl : pre ++ (k, s) :: rest = (pre ++ [(k, clean c s)]) ++ rest)
        by (rewrite <- app_assoc; simpl; by rewrite <- Hclean).
      rewrite Htbl, (IH _ Hnd'). by rewrite <- app_assoc.
Qed.

Lemma on_disconnect_sweep c (st : state) :
  NoDup (map fst (activeSessions st)) →
  on_disconnect c st
  = ({| activeSessions := swept c (activeSessions st); rooms := rooms st |},
     sweep_trace c (activeSessions st), inr tt).
Proof.
  intros Hnd. unfold on_disconnect, bind, get. simpl.
  destruct st as [tbl rms]. simpl in *.
  pose proof (disconnect_loop_sweep c [] tbl rms Hnd) as Hloop. simpl in Hloop.
  by rewrite Hloop.
Qed.
End SweepFacts.

(** ** Invariants of the reachable states *)

Section WellFormed.
Variable E : engine.
Implicit Types (c k : jsstring) (s : session) (st : state).

Lemma handle_keys_NoDup st ev :
  NoDup (api_sessions st) → NoDup (api_sessions (state_of (handle E ev st))).
Proof.
  unfold api_sessions. intros Hnd.
  destruct ev as [c|c sid now|c sid|c sid chunk now|c sid img now|c]; simpl.
  - done.
  - unfold on_create_session, bind, modify, act, state_of. simpl.
    rewrite keys_set_session. case_bool_decide as Hin; [done|].
    apply NoDup_app. split; [done|]. split; [|apply NoDup_singleton].
    intros x Hx ->%list_elem_of_singleton. done.
  - unfold on_join_session, read_session, bind, get, modify, act, throw, state_of. simpl.
    destruct (lookup_session sid (activeSessions st)); simpl; [|by case_bool_decide].
    by rewrite keys_update_session.
  - by rewrite on_screen_data_state.
  - by rewrite on_request_ocr_state.
  - rewrite disconnect_unfold, on_disconnect_sweep by done.
    unfold state_of. simpl. by apply keys_swept_NoDup.
Qed.

Lemma reachable_keys_NoDup st : reachable E st → NoDup (api_sessions st).
Proof.
  induction 1 as [|st ev _ IH]; [apply NoDup_nil_2 | by apply handle_keys_NoDup].
Qed.

Lemma handle_keyed st ev : keyed st → keyed (state_of (handle E ev st)).
Proof.
  intros Hk. destruct ev as [c|c sid now|c sid|c sid chunk now|c sid img now|c]; simpl.
  - intros k s Hs. unfold connect, modify, state_of in *. simpl in *.
    destruct (Hk k s Hs) as [Hid Hh]. split; [done|].
    rewrite members_join_room. case_decide; [by apply elem_of_union_r | done].
  - intros k s. unfold on_create_session, bind, modify, act, state_of. simpl.
    rewrite lookup_set_session, members_join_room.
    destruct (decide (sid = k)) as [->|Hne].
    + intros [= <-]. simpl. split; [done|].
      apply elem_of_union_l. by apply elem_of_singleton.
    + apply Hk.
  - unfold on_join_session, read_session, bind, get, modify, act, throw, state_of. simpl.
    destruct (lookup_session sid (activeSessions st)) as [s0|] eqn:Hs0; simpl;
      [|by case_bool_decide].
    intros k s. simpl. rewrite lookup_update_session, members_join_room.
    destruct (decide (sid = k)) as [->|Hne].
    + rewrite Hs0. simpl. intros [= <-]. simpl.
      destruct (Hk k s0 Hs0) as [Hid Hh]. split; [done|]. by apply elem_of_union_r.
    + apply Hk.
  - by rewrite on_screen_data_state.
  - by rewrite on_request_ocr_state.
  - rewrite disconnect_unfold. intros k s'.
    unfold members. rewrite (proj1 (on_disconnect_lookup c k (leave_all c st))).
    rewrite (proj2 (on_disconnect_lookup c k (leave_all c st))).
    fold (members k (leave_all c st)). rewrite members_leave_all. simpl.
    destruct (lookup_session k (activeSessions st)) as [s|] eqn:Hs; simpl; [|done].
    unfold clean_or_drop. case_decide as Hh; [done|]. intros [= <-].
    destruct (clean_fields c s) as (-> & -> & _).
    destruct (Hk k s Hs) as [Hid Hm]. split; [done|].
    apply elem_of_difference. split; [done|]. by intros ?%elem_of_singleton.
Qed.

Lemma reachable_keyed st : reachable E st → keyed st.
Proof.
  induction 1 as [|st ev _ IH]; [|by apply handle_keyed].
  intros k s. by simpl.
Qed.
End WellFormed.

(** ** The end of a session, seen from a viewer *)










(** X2. In every state that the server can reach, the session ids that
    [GET /api/sessions] lists are pairwise distinct, every session carries the
    id it is stored under, and the host of a session is a member of the
    session's room. *)
Theorem reachable_well_formed (E : engine) (st : state) (k : jsstring) (s : session) :
  reachable E st →
  lookup_session k (activeSessions st) = Some s →
  NoDup (api_sessions st) ∧ k ∈ api_sessions st ∧ id s = k ∧ host s ∈ members k st.
Proof.
  intros Hr Hs. split; [by apply (reachable_keys_NoDup E)|].
  split; [by apply (lookup_session_key k s)|]. by apply (reachable_keyed E st Hr).
Qed.

(** X2 on a run of the sample sessions and tools. *)
Lemma reachable_well_formed_witness :
  reachable engine0 state_viewed
  ∧ NoDup (api_sessions state_viewed)
  ∧ host_X ∈ members session_S state_viewed.
Proof.
  split; [exact reachable_state_viewed|].
  destruct (reachable_well_formed engine0 state_viewed session_S
              {| id := session_S; host := host_X; viewers := [viewer_Y]; startTime := 5 |}
              reachable_state_viewed eq_refl) as (Hnd & _ & _ & Hh).
  split; [exact Hnd | exact Hh].
Defined.

(** X3. In a reachable state, a [screen-data] message on a session of the
    table makes the handler emit the chunk once, to a target that holds every
    viewer of the session and its host, the sender left out: each of them
    receives exactly one [screen-data] event and the sender none. The handler
    does not test that the sender is the host, so a frame that a viewer sends
    reaches the host. *)
Theorem broadcast_reaches_viewers_and_host (E : engine) (st : state)
    (c sid v : jsstring) (s : session) (chunk : json) (now : Z) :
  reachable E st →
  lookup_session sid (activeSessions st) = Some s →
  v ∈ viewers s ∨ v = host s → v ≠ c →
  ∃ tg rest,
    trace_of (on_screen_data E c sid chunk now st)
    = Emit tg (js "screen-data") (JObj [(js "chunk", chunk)]) :: rest
    ∧ v ∈ recipients st tg
    ∧ (c ∉ recipients st tg)
    ∧ received st v (js "screen-data") (trace_of (on_screen_data E c sid chunk now st)) = 1
    ∧ received st c (js "screen-data") (trace_of (on_screen_data E c sid chunk now st)) = 0.
Proof.
  intros Hr Hs Hv Hne.
  destruct (screen_data_cases E st c sid chunk now (read_session_found _ _ _ Hs))
    as (rest & Htr & Hrest).
  assert (Hin : v ∈ recipients st (ToRoomExcept sid c)).
  { simpl. apply elem_of_difference. split; [|by intros ?%elem_of_singleton].
    destruct Hv as [Hv | ->].
    - by apply (reachable_subscribed E st Hr sid s v).
    - by apply (reachable_keyed E st Hr sid s). }
  assert (Hout : c ∉ recipients st (ToRoomExcept sid c)).
  { simpl. intros [_ Hc]%elem_of_difference. apply Hc. by apply elem_of_singleton. }
  exists (ToRoomExcept sid c), rest. split; [exact Htr|].
  split; [exact Hin|]. split; [exact Hout|].
  rewrite Htr. cbn [received reaches].
  rewrite (bool_decide_eq_true_2 (js "screen-data" = js "screen-data")) by done.
  rewrite (bool_decide_eq_true_2 _ Hin), (bool_decide_eq_false_2 _ Hout).
  destruct Hrest as [->|[->|[->|[(b & e & _ & ->)|(b & d & _ & ->)]]]];
    cbn [received reaches];
    rewrite ?(bool_decide_eq_false_2 (js "error" = js "screen-data")) by done;
    rewrite ?(bool_decide_eq_false_2 (js "ocr-result" = js "screen-data")) by done;
    done.
Qed.

(** X3 on a run of the sample sessions and tools: a frame that the viewer
    [Y] sends reaches the host [X]. *)
Lemma broadcast_reaches_viewers_and_host_witness :
  reachable engine0 state_viewed
  ∧ ∃ tg rest,
      trace_of (on_screen_data engine0 viewer_Y session_S JNull 9 state_viewed)
      = Emit tg (js "screen-data") (JObj [(js "chunk", JNull)]) :: rest
      ∧ host_X ∈ recipients state_viewed tg.
Proof.
  split; [exact reachable_state_viewed|].
  destruct (broadcast_reaches_viewers_and_host engine0 state_viewed viewer_Y session_S host_X
              {| id := session_S; host := host_X; viewers := [viewer_Y]; startTime := 5 |}
              JNull 9 reachable_state_viewed eq_refl)
    as (tg & rest & Htr & Hin & _); [by right | by vm_compute |].
  by exists tg, rest.
Defined.

(** ** Creating and listing sessions *)

(** X4. [create-session] stores a session with the given id, the caller as
    host, no viewer and the current time, and leaves every other session as
    it is; the caller joins the room of the session and is the only one to get
    [session-created]; the listing gains the id at its end, or keeps its
    shape when the id was there. *)
Theorem create_session_registers (c sid : jsstring) (now : Z) (st : state) :
  lookup_session sid (activeSessions (state_of (on_create_session c sid now st)))
    = Some {| id := sid; host := c; viewers := []; startTime := now |}
  ∧ (∀ k, k ≠ sid →
       lookup_session k (activeSessions (state_of (on_create_session c sid now st)))
       = lookup_session k (activeSessions st)
       ∧ members k (state_of (on_create_session c sid now st)) = members k st)
  ∧ members sid (state_of (on_create_session c sid now st)) = {[c]} ∪ members sid st
  ∧ trace_of (on_create_session c sid now st)
    = [Emit (ToSocket c) (js "session-created") (JObj [(js "sessionId", JStr sid)])]
  ∧ api_sessions (state_of (on_create_session c sid now st))
    = if bool_decide (sid ∈ api_sessions st) then api_sessions st
      else api_sessions st ++ [sid].
Proof.
  unfold on_create_session, bind, modify, act, state_of, trace_of, api_sessions. simpl.
  split; [by rewrite lookup_set_session, decide_True|]. split.
  { intros k Hne. rewrite lookup_set_session, decide_False by congruence.
    by rewrite members_join_room, decide_False by congruence. }
  split; [by rewrite members_join_room, decide_True|].
  split; [done|]. apply keys_set_session.
Qed.

(** X5. A [join-session], [screen-data] or [request-ocr] message whose
    session id is neither a session of the table nor the name of a member of
    [Object.prototype] changes nothing, calls no engine and broadcasts
    nothing: its sender alone gets one [error] event, "Session not found". *)
Theorem unknown_session_rejected (E : engine) (c sid : jsstring) (chunk img : json)
    (now : Z) (st : state) :
  lookup_session sid (activeSessions st) = None →
  sid ∉ object_prototype_keys →
  on_join_session c sid st
    = (st, [Emit (ToSocket c) (js "error") (message_payload "Session not found")], inr tt)
  ∧ on_screen_data E c sid chunk now st
    = (st, [Emit (ToSocket c) (js "error") (message_payload "Session not found")], inr tt)
  ∧ on_request_ocr E c sid img now st
    = (st, [Emit (ToSocket c) (js "error") (message_payload "Session not found")], inr tt).
Proof.
  intros Hs Hp. run_broker. rewrite Hs.
  by rewrite (bool_decide_eq_false_2 _ Hp).
Qed.

(** X5 on a run of the sample sessions and tools. *)
Lemma unknown_session_rejected_witness :
  lookup_session session_S (activeSessions initial) = None
  ∧ (session_S ∉ object_prototype_keys)
  ∧ on_join_session viewer_Y session_S initial
    = (initial, [Emit (ToSocket viewer_Y) (js "error") (message_payload "Session not found")],
       inr tt).
Proof.
  assert (Hp : session_S ∉ object_prototype_keys).
  { apply (bool_decide_eq_false (session_S ∈ object_prototype_keys)). reflexivity. }
  split; [reflexivity|]. split; [exact Hp|].
  exact (proj1 (unknown_session_rejected engine0 viewer_Y session_S JNull JNull 0 initial
                  eq_refl Hp)).
Defined.

(** X24. A session id that is not a session of the table but the name of a
    member of [Object.prototype], such as [toString], passes the test
    [!session] of the three handlers. [join-session] then throws when it
    reads [session.viewers.push], before any emit and with the table and the
    rooms as they were; [screen-data] emits the chunk to the room of that
    name without the sender, and [request-ocr] on an input with a comma and
    text behind it calls the engine; both leave the state as it was. *)
Theorem inherited_name_passes (E : engine) (c sid : jsstring) (chunk : json)
    (now : Z) (st : state) :
  lookup_session sid (activeSessions st) = None →
  sid ∈ object_prototype_keys →
  (∃ e, on_join_session c sid st = (st, [], inl e))
  ∧ (∃ rest,
       trace_of (on_screen_data E c sid chunk now st)
       = Emit (ToRoomExcept sid c) (js "screen-data") (JObj [(js "chunk", chunk)]) :: rest)
  ∧ (∀ d p, after_first_comma d = Some p → first_segment p ≠ [] →
       ∃ reply,
         trace_of (on_request_ocr E c sid (JStr d) now st)
         = [Recognize (Buffer_from_base64 E (first_segment p)); reply])
  ∧ state_of (on_screen_data E c sid chunk now st) = st
  ∧ (∀ img, state_of (on_request_ocr E c sid img now st) = st).
Proof.
  intros Hs Hp.
  assert (Hr : read_session sid (activeSessions st) = Inherited)
    by apply (read_session_Inherited _ _ Hs Hp).
  split; [|split; [|split; [|split]]].
  - unfold on_join_session, bind, get, throw. simpl. rewrite Hr. by eexists.
  - destruct (screen_data_cases E st c sid chunk now) as (rest & Htr & _);
      [by rewrite Hr | by exists rest].
  - intros d p Hd Hne. run_broker.
    rewrite Hs, (bool_decide_eq_true_2 _ Hp), split_char_second, Hd. simpl.
    destruct (first_segment p) eqn:Hseg; [done|]. run_broker.
    destruct (recognize E _); by eexists.
  - apply on_screen_data_state.
  - intros img. apply on_request_ocr_state.
Qed.

(** X24 for the id [toString] on the empty table. *)
Lemma inherited_name_passes_witness :
  lookup_session (js "toString") (activeSessions initial) = None
  ∧ (js "toString" ∈ object_prototype_keys)
  ∧ (∃ e, on_join_session viewer_Y (js "toString") initial = (initial, [], inl e))
  ∧ ∃ rest,
      trace_of (on_screen_data engine0 viewer_Y (js "toString") JNull 0 initial)
      = Emit (ToRoomExcept (js "toString") viewer_Y) (js "screen-data")
          (JObj [(js "chunk", JNull)]) :: rest.
Proof.
  assert (Hp : js "toString" ∈ object_prototype_keys).
  { apply (bool_decide_eq_true (js "toString" ∈ object_prototype_keys)). reflexivity. }
  split; [reflexivity|]. split; [exact Hp|].
  destruct (inherited_name_passes engine0 viewer_Y (js "toString") JNull 0 initial
              eq_refl Hp) as (Hjoin & Hscreen & _).
  split; [exact Hjoin | exact Hscreen].
Defined.

(** ** The [request-ocr] handler, whatever it is given *)

Lemma request_ocr_cases (E : engine) (st : state) (c sid : jsstring)
    (img : json) (now : Z) :
  read_session sid (activeSessions st) ≠ Missing →
  trace_of (on_request_ocr E c sid img now st)
    = [Emit (ToSocket c) (js "error") (message_payload "Invalid image data")]
  ∨ trace_of (on_request_ocr E c sid img now st)
    = [Emit (ToSocket c) (js "error") (message_payload "Failed to perform OCR")]
      ∧ (∀ d, img ≠ JStr d)
  ∨ (∃ b e, recognize E b = inl e
       ∧ trace_of (on_request_ocr E c sid img now st)
         = [Recognize b;
            Emit (ToSocket c) (js "error") (message_payload "Failed to perform OCR")])
  ∨ (∃ b d, recognize E b = inr d
       ∧ trace_of (on_request_ocr E c sid img now st)
         = [Recognize b;
            Emit (ToSocket c) (js "ocr-result") (ocr_result sid now (text d))]).
Proof.
  intros Hr. unfold read_session in Hr. run_broker.
  destruct (lookup_session sid (activeSessions st)); [|case_bool_decide; [|done]];
    (destruct img; run_broker;
     try (right; left; split; [reflexivity | by intros d [=]]);
     destruct (nth_error _ 1) as [[|x b]|]; run_broker; try (by left);
     destruct (recognize E _) as [e|d] eqn:Hrec;
     [right; right; left | right; right; right]; by eexists _, _).
Qed.

(** X6. [request-ocr] on a session of the table never changes the table or
    the rooms and never broadcasts: it calls the engine at most once and
    sends exactly one event, to the requester. An [imageData] that is not a
    string is answered with "Failed to perform OCR" before any engine call,
    and a successful answer carries the engine's text as it is, white space
    included. *)
Theorem request_ocr_private (E : engine) (st : state) (c sid : jsstring)
    (s : session) (img : json) (now : Z) :
  lookup_session sid (activeSessions st) = Some s →
  state_of (on_request_ocr E c sid img now st) = st
  ∧ (∃ calls reply p,
       trace_of (on_request_ocr E c sid img now st)
       = calls ++ [Emit (ToSocket c) reply p]
       ∧ (calls = [] ∨ ∃ b, calls = [Recognize b])
       ∧ (reply = js "error" ∨ reply = js "ocr-result"))
  ∧ ((∀ d, img ≠ JStr d) →
       trace_of (on_request_ocr E c sid img now st)
       = [Emit (ToSocket c) (js "error") (message_payload "Failed to perform OCR")])
  ∧ (∀ b d, Recognize b ∈ trace_of (on_request_ocr E c sid img now st) →
       recognize E b = inr d →
       trace_of (on_request_ocr E c sid img now st)
       = [Recognize b; Emit (ToSocket c) (js "ocr-result") (ocr_result sid now (text d))]).
Proof.
  intros Hs. split; [apply on_request_ocr_state|].
  destruct (request_ocr_cases E st c sid img now (read_session_found _ _ _ Hs))
    as [Htr|[[Htr Himg]|[(b & e & Hrec & Htr)|(b & d & Hrec & Htr)]]];
    rewrite Htr; (split; [|split]).
  - exists [], (js "error"), (message_payload "Invalid image data"). by eauto.
  - intros Himg. revert Htr. run_broker. rewrite Hs.
    destruct img; run_broker; try done. by destruct (Himg s0).
  - intros b d [[=]|Hin%elem_of_nil]%elem_of_cons. done.
  - exists [], (js "error"), (message_payload "Failed to perform OCR"). by eauto.
  - done.
  - intros b d [[=]|Hin%elem_of_nil]%elem_of_cons. done.
  - exists [Recognize b], (js "error"), (message_payload "Failed to perform OCR").
    split; [done|]. split; [right; by eexists | by left].
  - intros Himg. revert Htr. run_broker. rewrite Hs.
    destruct img; run_broker; try done. by destruct (Himg s0).
  - intros b' d [[= ->]|[[=]|Hin%elem_of_nil]%elem_of_cons]%elem_of_cons; [congruence|done].
  - exists [Recognize b], (js "ocr-result"), (ocr_result sid now (text d)).
    split; [done|]. split; [right; by eexists | by right].
  - intros Himg. revert Htr. run_broker. rewrite Hs.
    destruct img; run_broker; try done. by destruct (Himg s0).
  - intros b' d' [[= ->]|[[=]|Hin%elem_of_nil]%elem_of_cons]%elem_of_cons; [|done].
    intros Hrec'. congruence.
Qed.

(** X6 on a run of the sample sessions and tools. *)
Lemma request_ocr_private_witness :
  lookup_session session_S (activeSessions state_viewed)
    = Some {| id := session_S; host := host_X; viewers := [viewer_Y]; startTime := 5 |}
  ∧ trace_of (on_request_ocr engine0 viewer_Y session_S (JNum 3) 9 state_viewed)
    = [Emit (ToSocket viewer_Y) (js "error") (message_payload "Failed to perform OCR")].
Proof.
  assert (Hs : lookup_session session_S (activeSessions state_viewed)
               = Some {| id := session_S; host := host_X; viewers := [viewer_Y];
                         startTime := 5 |}) by reflexivity.
  split; [exact Hs|].
  destruct (request_ocr_private engine0 state_viewed viewer_Y session_S _ (JNum 3) 9 Hs)
    as (_ & _ & Hnum & _).
  apply Hnum. intros d. discriminate.
Defined.

(** ** [screen-data] with a payload that is empty *)

(** X7. A chunk whose [data] is the empty string is broadcast and nothing
    else happens; a chunk whose [data] is not empty but has nothing between
    its first and its second comma is broadcast, and the sender is told
    "Invalid image data". The engine is not called in either case. *)
Theorem screen_data_empty_payload (E : engine) (st : state) (c sid : jsstring)
    (s : session) (chunk : json) (d : jsstring) (now : Z) :
  lookup_session sid (activeSessions st) = Some s →
  chunk ≠ JUndefined → chunk ≠ JNull →
  get_field (js "data") chunk = JStr d →
  selected_payload d = [] →
  trace_of (on_screen_data E c sid chunk now st)
  = Emit (ToRoomExcept sid c) (js "screen-data") (JObj [(js "chunk", chunk)])
    :: match d with
       | [] => []
       | _ :: _ =>
           [Emit (ToSocket c) (js "error") (message_payload "Invalid image data")]
       end.
Proof.
  intros Hs Hu Hn Hd Hsel. run_broker. rewrite Hs.
  destruct chunk; run_broker; try done; rewrite Hd;
    (destruct d as [|a d']; [done|]);
    run_broker; by rewrite screen_image_data_selected, Hsel.
Qed.

(** X7 on a run of the sample sessions and tools. *)
Lemma screen_data_empty_payload_witness :
  lookup_session session_S (activeSessions state_viewed)
    = Some {| id := session_S; host := host_X; viewers := [viewer_Y]; startTime := 5 |}
  ∧ trace_of (on_screen_data engine0 host_X session_S
                (JObj [(js "data", JStr (js "data:image/png;base64,"))]) 9 state_viewed)
    = [Emit (ToRoomExcept session_S host_X) (js "screen-data")
         (JObj [(js "chunk", JObj [(js "data", JStr (js "data:image/png;base64,"))])]);
       Emit (ToSocket host_X) (js "error") (message_payload "Invalid image data")].
Proof.
  assert (Hs : lookup_session session_S (activeSessions state_viewed)
               = Some {| id := session_S; host := host_X; viewers := [viewer_Y];
                         startTime := 5 |}) by reflexivity.
  split; [exact Hs|].
  apply (screen_data_empty_payload engine0 state_viewed host_X session_S _ _
           (js "data:image/png;base64,") 9 Hs);
    [discriminate | discriminate | reflexivity | reflexivity].
Defined.

(** ** Disconnects *)

(** X8. When a socket disconnects, a session that it does not host stays in
    the table with the same id, host and start time, and its viewer list is
    the old one without the socket, every copy of its id removed and the
    order of the others kept. *)
Theorem viewer_disconnect_leaves (c sid : jsstring) (s : session) (st : state) :
  lookup_session sid (activeSessions st) = Some s →
  host s ≠ c →
  ∃ s', lookup_session sid (activeSessions (state_of (disconnect c st))) = Some s'
      ∧ id s' = id s ∧ host s' = host s ∧ startTime s' = startTime s
      ∧ viewers s' = without c (viewers s)
      ∧ c ∉ viewers s'.
Proof.
  intros Hs Hh. exists (clean c s).
  rewrite disconnect_unfold, (proj2 (on_disconnect_lookup c sid (leave_all c st))).
  simpl. rewrite Hs. simpl. unfold clean_or_drop. rewrite decide_False by done.
  split; [done|]. destruct (clean_fields c s) as (Hid & Hho & Hst & Hv).
  repeat (split; [done|]).
  rewrite Hv. unfold without. rewrite list_elem_of_filter. tauto.
Qed.

(** X8 on a run of the sample sessions and tools. *)
Lemma viewer_disconnect_leaves_witness :
  lookup_session session_S (activeSessions state_viewed)
    = Some {| id := session_S; host := host_X; viewers := [viewer_Y]; startTime := 5 |}
  ∧ ∃ s', lookup_session session_S
            (activeSessions (state_of (disconnect viewer_Y state_viewed))) = Some s'
        ∧ viewers s' = [].
Proof.
  assert (Hs : lookup_session session_S (activeSessions state_viewed)
               = Some {| id := session_S; host := host_X; viewers := [viewer_Y];
                         startTime := 5 |}) by reflexivity.
  split; [exact Hs|].
  destruct (viewer_disconnect_leaves viewer_Y session_S _ state_viewed Hs)
    as (s' & Hl & _ & _ & _ & Hv & _); [by vm_compute|].
  exists s'. split; [exact Hl|]. rewrite Hv. reflexivity.
Defined.

(** X9. In a reachable state a disconnect is one sweep of the table in
    listing order: each session of the closing host gives a [session-ended]
    to its room and is deleted, each other session that has the socket as a
    viewer loses it and gives one [viewer-left] to the room of its host, and
    the remaining sessions give nothing. The listing afterwards is the old
    one without the sessions of that host. *)
Theorem disconnect_is_a_sweep (E : engine) (c : jsstring) (st : state) :
  reachable E st →
  activeSessions (state_of (disconnect c st)) = swept c (activeSessions st)
  ∧ trace_of (disconnect c st) = sweep_trace c (activeSessions st)
  ∧ rooms (state_of (disconnect c st)) = rooms (leave_all c st)
  ∧ api_sessions (state_of (disconnect c st))
    = map fst (filter (λ e, host e.2 ≠ c) (activeSessions st)).
Proof.
  intros Hr. pose proof (reachable_keys_NoDup E st Hr) as Hnd.
  rewrite disconnect_unfold, on_disconnect_sweep by done.
  unfold state_of, trace_of, api_sessions. simpl.
  repeat split; try done. apply keys_swept.
Qed.

(** X9 on a run of the sample sessions and tools. *)
Lemma disconnect_is_a_sweep_witness :
  reachable engine0 state_viewed
  ∧ trace_of (disconnect viewer_Y state_viewed)
    = [Emit (ToRoom host_X) (js "viewer-left") (JObj [(js "viewerId", JStr viewer_Y)])]
  ∧ api_sessions (state_of (disconnect host_X state_viewed)) = [].
Proof.
  split; [exact reachable_state_viewed|]. split.
  - exact (proj1 (proj2 (disconnect_is_a_sweep engine0 viewer_Y state_viewed
                           reachable_state_viewed))).
  - exact (proj2 (proj2 (proj2 (disconnect_is_a_sweep engine0 host_X state_viewed
                                  reachable_state_viewed)))).
Defined.

(** ** What ends a session, and what does not *)

(** X10. A session leaves the table only when its host disconnects: after any
    other event it is still there, and unless the event is a [create-session]
    that draws the same id again, its id, host and start time are the same
    and no viewer other than a disconnecting socket is lost. *)
Theorem session_persists (E : engine) (ev : event) (k : jsstring) (s : session)
    (st : state) :
  lookup_session k (activeSessions st) = Some s →
  (∀ c, ev = Disconnect c → host s ≠ c) →
  ∃ s', lookup_session k (activeSessions (state_of (handle E ev st))) = Some s'
      ∧ ((∀ c now, ev ≠ Create_session c k now) →
         id s' = id s ∧ host s' = host s ∧ startTime s' = startTime s
         ∧ ∀ v, v ∈ viewers s → v ≠ sender ev ∨ (∀ c, ev ≠ Disconnect c) →
                v ∈ viewers s').
Proof.
  intros Hs Hhost.
  destruct ev as [c|c sid now|c sid|c sid chunk now|c sid img now|c]; simpl.
  - exists s. unfold connect, modify, state_of. simpl. by eauto.
  - unfold on_create_session, bind, modify, act, state_of. simpl.
    rewrite lookup_set_session. destruct (decide (sid = k)) as [->|Hne].
    + eexists. split; [done|]. intros Hev. by destruct (Hev c now).
    + exists s. by eauto.
  - unfold on_join_session, read_session, bind, get, modify, act, throw, state_of. simpl.
    destruct (lookup_session sid (activeSessions st)) as [s0|] eqn:Hs0; simpl;
      [|case_bool_decide; exists s; by eauto].
    rewrite lookup_update_session. destruct (decide (sid = k)) as [->|Hne].
    + rewrite Hs. simpl. eexists. split; [done|]. intros _. simpl.
      repeat (split; [done|]). intros v Hv _. apply elem_of_app. by left.
    + exists s. by eauto.
  - rewrite on_screen_data_state. exists s. by eauto.
  - rewrite on_request_ocr_state. exists s. by eauto.
  - rewrite disconnect_unfold, (proj2 (on_disconnect_lookup c k (leave_all c st))).
    simpl. rewrite Hs. simpl. unfold clean_or_drop.
    rewrite decide_False by by apply Hhost.
    exists (clean c s). split; [done|]. intros _.
    destruct (clean_fields c s) as (Hid & Hho & Hst & Hv).
    repeat (split; [done|]). intros v Hin [Hne|Hno]; [|by destruct (Hno c)].
    rewrite Hv. unfold without. rewrite list_elem_of_filter. done.
Qed.

(** X10 on a run of the sample sessions and tools. *)
Lemma session_persists_witness :
  lookup_session session_S (activeSessions state_viewed)
    = Some {| id := session_S; host := host_X; viewers := [viewer_Y]; startTime := 5 |}
  ∧ ∃ s', lookup_session session_S
            (activeSessions (state_of (handle engine0 (Disconnect viewer_Y) state_viewed)))
          = Some s'.
Proof.
  assert (Hs : lookup_session session_S (activeSessions state_viewed)
               = Some {| id := session_S; host := host_X; viewers := [viewer_Y];
                         startTime := 5 |}) by reflexivity.
  split; [exact Hs|].
  destruct (session_persists engine0 (Disconnect viewer_Y) session_S _ state_viewed Hs)
    as (s' & Hl & _).
  - intros c [= <-]. by vm_compute.
  - by exists s'.
Defined.

(** ** The events that the server sends *)

Lemma disconnect_loop_rooms (c : jsstring) (ks : list jsstring) (st : state)
    (tg : target) (name : jsstring) (p : json) :
  Emit tg name p ∈ trace_of (disconnect_loop c ks st) →
  name ∈ to_a_room ∧ ∃ r, tg = ToRoom r.
Proof.
  revert st. induction ks as [|k ks IH]; intros st.
  { simpl. by intros ?%elem_of_nil. }
  rewrite disconnect_loop_trace. intros [Hin|Hin]%elem_of_app; [|by eapply IH].
  revert Hin. unfold disconnect_body, bind, get, modify, act, ret, trace_of. simpl.
  destruct (lookup_session k (activeSessions st)) as [s|]; simpl;
    [|by intros ?%elem_of_nil].
  destruct (decide (host s = c)); simpl.
  - intros Hin. emitted Hin. split; [listed | by eexists].
  - destruct (includes c (viewers s)); simpl; [|by intros ?%elem_of_nil].
    intros Hin. emitted Hin. split; [listed | by eexists].
Qed.

(** X11. Whatever the event and the state, every event that the server sends
    is one of eight: [session-created], [session-joined], [ocr-result] and
    [error] go to the socket that the event came from and to no one else,
    [screen-data] goes to a room without its sender, and [viewer-joined],
    [viewer-left] and [session-ended] go to a room. *)
Theorem events_are_routed (E : engine) (ev : event) (st : state)
    (tg : target) (name : jsstring) (p : json) :
  Emit tg name p ∈ trace_of (handle E ev st) →
  (name ∈ to_one_socket ∧ tg = ToSocket (sender ev))
  ∨ (name = js "screen-data" ∧ ∃ r, tg = ToRoomExcept r (sender ev))
  ∨ (name ∈ to_a_room ∧ ∃ r, tg = ToRoom r).
Proof.
  destruct ev as [c|c sid now|c sid|c sid chunk now|c sid img now|c]; simpl.
  - by intros ?%elem_of_nil.
  - intros Hin. emitted Hin. left. split; [listed | done].
  - run_broker. destruct (lookup_session sid (activeSessions st)) as [s|];
      [|case_bool_decide]; intros Hin; emitted Hin.
    + left. split; [listed | done].
    + right; right. split; [listed | by eexists].
    + left. split; [listed | done].
  - destruct (read_session_Missing_or sid (activeSessions st)) as [Hs|Hs].
    + rewrite (screen_data_missing E st c sid chunk now Hs). unfold trace_of; simpl.
      intros Hin. emitted Hin. left. split; [listed | done].
    + destruct (screen_data_cases E st c sid chunk now Hs) as (rest & -> & Hrest).
      intros [Hin|Hin]%elem_of_cons.
      { injection Hin as -> -> ->. right; left. split; [done | by eexists]. }
      destruct Hrest as [->|[->|[->|[(b & e & _ & ->)|(b & d & _ & ->)]]]];
        emitted Hin; left; (split; [listed | done]).
  - destruct (read_session_Missing_or sid (activeSessions st)) as [Hs|Hs].
    + rewrite (request_ocr_missing E st c sid img now Hs). unfold trace_of; simpl.
      intros Hin. emitted Hin. left. split; [listed | done].
    + destruct (request_ocr_cases E st c sid img now Hs)
        as [Htr|[[Htr _]|[(b & e & _ & Htr)|(b & d & _ & Htr)]]]; rewrite Htr;
        intros Hin; emitted Hin; left; (split; [listed | done]).
  - rewrite disconnect_unfold, on_disconnect_trace. intros Hin.
    right; right. by eapply disconnect_loop_rooms.
Qed.

(** X11 on a run of the sample sessions and tools. *)
Lemma events_are_routed_witness :
  Emit (ToSocket viewer_Y) (js "error") (message_payload "Session not found")
    ∈ trace_of (handle engine0 (Join_session viewer_Y session_S) initial)
  ∧ ((js "error" ∈ to_one_socket ∧ ToSocket viewer_Y = ToSocket viewer_Y)
     ∨ (js "error" = js "screen-data" ∧ ∃ r, ToSocket viewer_Y = ToRoomExcept r viewer_Y)
     ∨ (js "error" ∈ to_a_room ∧ ∃ r, ToSocket viewer_Y = ToRoom r)).
Proof.
  assert (Hin : Emit (ToSocket viewer_Y) (js "error") (message_payload "Session not found")
                  ∈ trace_of (handle engine0 (Join_session viewer_Y session_S) initial))
    by apply list_elem_of_here.
  split; [exact Hin|].
  exact (events_are_routed engine0 (Join_session viewer_Y session_S) initial _ _ _ Hin).
Defined.

(** ** Joining a session *)

(** X12. A [join-session] for a session of the table answers the caller with
    [session-joined] and tells the room named by the host's socket id
    [viewer-joined] with the caller's id, in that order and nothing else;
    the caller is in the session's room from then on, so that it is reached
    by the [screen-data] broadcast of any other sender; the host, id and
    start time of the session stay, and every other session and room is
    untouched. *)
Theorem join_session_subscribes (c sid : jsstring) (s : session) (st : state) :
  lookup_session sid (activeSessions st) = Some s →
  trace_of (on_join_session c sid st)
    = [Emit (ToSocket c) (js "session-joined") (JObj [(js "sessionId", JStr sid)]);
       Emit (ToRoom (host s)) (js "viewer-joined") (JObj [(js "viewerId", JStr c)])]
  ∧ lookup_session sid (activeSessions (state_of (on_join_session c sid st)))
    = Some {| id := id s; host := host s; viewers := viewers s ++ [c];
              startTime := startTime s |}
  ∧ (∀ sender, sender ≠ c →
       c ∈ recipients (state_of (on_join_session c sid st)) (ToRoomExcept sid sender))
  ∧ (∀ k, k ≠ sid →
       lookup_session k (activeSessions (state_of (on_join_session c sid st)))
       = lookup_session k (activeSessions st)
       ∧ members k (state_of (on_join_session c sid st)) = members k st)
  ∧ api_sessions (state_of (on_join_session c sid st)) = api_sessions st.
Proof.
  intros Hs. rewrite (on_join_session_found c sid s st Hs).
  unfold state_of, trace_of, api_sessions. simpl.
  split; [done|]. split.
  { by rewrite lookup_update_session, decide_True, Hs. }
  split.
  { intros sender Hne. rewrite members_join_room, decide_True by done.
    apply elem_of_difference. split.
    - apply elem_of_union_l. by apply elem_of_singleton.
    - intros Hc%elem_of_singleton. by apply Hne. }
  split; [|apply keys_update_session].
  intros k Hne. rewrite lookup_update_session, decide_False by congruence.
  by rewrite members_join_room, decide_False by congruence.
Qed.

(** X12 on a run of the sample sessions and tools. *)
Lemma join_session_subscribes_witness :
  lookup_session session_S (activeSessions state_hosted)
    = Some {| id := session_S; host := host_X; viewers := []; startTime := 5 |}
  ∧ viewer_Y ∈ recipients (state_of (on_join_session viewer_Y session_S state_hosted))
                 (ToRoomExcept session_S host_X).
Proof.
  assert (Hs : lookup_session session_S (activeSessions state_hosted)
               = Some {| id := session_S; host := host_X; viewers := []; startTime := 5 |})
    by reflexivity.
  split; [exact Hs|].
  destruct (join_session_subscribes viewer_Y session_S _ state_hosted Hs)
    as (_ & _ & Hrcp & _).
  apply Hrcp. by vm_compute.
Defined.

(** ** The tools and the collector *)

(** X13. When the payload is not empty and the engine rejects, [extract_text]
    returns a failure envelope whose error is the message of the rejection
    when that is an [Error] and "OCR processing failed" otherwise; the engine
    was called once, and the request, OCR and error counters each went up by
    one. *)
Theorem extract_text_engine_failure (E : engine) (clk : clock) (imageData : jsstring)
    (m : metrics) (e : thrown) :
  base64Data_of imageData ≠ [] →
  recognize E (Buffer_from_base64 E (base64Data_of imageData)) = inl e →
  outcome_of (extract_text E clk imageData m)
    = inr (JObj [(js "success", JBool false);
                 (js "error", JStr (match e with
                                    | ThrowError msg => msg
                                    | ThrowOther _ => js "OCR processing failed"
                                    end));
                 (js "timestamp", JStr (iso clk))])
  ∧ trace_of (extract_text E clk imageData m)
    = [Recognize (Buffer_from_base64 E (base64Data_of imageData))]
  ∧ requests (state_of (extract_text E clk imageData m)) = (requests m + 1)%N
  ∧ ocrRequests (state_of (extract_text E clk imageData m)) = (ocrRequests m + 1)%N
  ∧ errors (state_of (extract_text E clk imageData m)) = (errors m + 1)%N.
Proof.
  intros Hne Hrec. run_comp.
  destruct (base64Data_of imageData) as [|a b] eqn:Hb; [done|].
  simpl. rewrite Hrec. simpl. by destruct e.
Qed.

(** X13 on a run of the sample sessions and tools. *)
Lemma extract_text_engine_failure_witness :
  base64Data_of (js "AAAA") ≠ []
  ∧ outcome_of (extract_text engine_down clock0 (js "AAAA") (fresh 0))
    = inr (JObj [(js "success", JBool false);
                 (js "error", JStr (js "OCR processing failed"));
                 (js "timestamp", JStr (iso clock0))]).
Proof.
  assert (Hne : base64Data_of (js "AAAA") ≠ []) by (by vm_compute).
  split; [exact Hne|].
  exact (proj1 (extract_text_engine_failure engine_down clock0 (js "AAAA") (fresh 0)
                  (ThrowOther (JStr (js "worker terminated"))) Hne eq_refl)).
Defined.

Lemma invoke_accounts (E : engine) (clk : clock) (i : invocation) (m : metrics) :
  ∃ envelope,
    outcome_of (invoke E clk i m) = inr envelope
    ∧ requests (state_of (invoke E clk i m)) = (requests m + 1)%N
    ∧ (screenCaptures (state_of (invoke E clk i m))
       + ocrRequests (state_of (invoke E clk i m))
       + activityLogs (state_of (invoke E clk i m))
       = screenCaptures m + ocrRequests m + activityLogs m + 1)%N
    ∧ errors (state_of (invoke E clk i m))
      = (errors m + if is_failure envelope then 1 else 0)%N
    ∧ (is_failure envelope = true → is_extract_text (clk, i) = true)
    ∧ uptime (state_of (invoke E clk i m)) = uptime m
    ∧ lastRequest (state_of (invoke E clk i m)) = Some (t_request clk).
Proof.
  destruct i as [|imageData|d c l p]; run_comp.
  - eexists. split; [reflexivity|]. eval_failure. simpl. repeat split; try lia; try done.
  - destruct (truthy_string (base64Data_of imageData)); simpl;
      [destruct (recognize E _)|];
      (eexists; split; [reflexivity|]); eval_failure; simpl; repeat split; try lia; try done.
  - eexists. split; [reflexivity|]. eval_failure. simpl. repeat split; try lia; try done.
Qed.

Lemma run_requests (E : engine) (calls : list (clock * invocation)) (m : metrics) :
  requests (run E calls m) = (requests m + N.of_nat (length calls))%N
  ∧ uptime (run E calls m) = uptime m.
Proof.
  revert m. induction calls as [|[clk i] rest IH]; intros m.
  - simpl. split; [lia | done].
  - destruct (invoke_accounts E clk i m) as (_ & _ & Hreq & _ & _ & _ & Hup & _).
    destruct (IH (state_of (invoke E clk i m))) as (Hr & Hu).
    cbn [run]. split; [simpl length; lia | congruence].
Qed.

(** X14. Along every sequence of tool calls each call returns an envelope, the
    request counter goes up by the number of calls, and so does the sum of
    the three tool counters; the error counter goes up by the number of
    failure envelopes, all of which come from [extract_text]; the start time
    of the collector is never touched. *)
Theorem collector_accounts (E : engine) (calls : list (clock * invocation))
    (m : metrics) :
  length (responses E calls m) = length calls
  ∧ requests (run E calls m) = (requests m + N.of_nat (length calls))%N
  ∧ (screenCaptures (run E calls m) + ocrRequests (run E calls m)
     + activityLogs (run E calls m)
     = screenCaptures m + ocrRequests m + activityLogs m + N.of_nat (length calls))%N
  ∧ errors (run E calls m) = (errors m + N.of_nat (failures (responses E calls m)))%N
  ∧ failures (responses E calls m)
    ≤ length (filter (λ call, is_extract_text call = true) calls)
  ∧ uptime (run E calls m) = uptime m.
Proof.
  revert m. induction calls as [|[clk i] rest IH]; intros m.
  - unfold failures. simpl. repeat split; try lia; try done.
  - destruct (invoke_accounts E clk i m)
      as (envelope & Hout & Hreq & Hsum & Herr & Hfail & Hup & _).
    destruct (IH (state_of (invoke E clk i m))) as (Hl & Hr & Hs & He & Hf & Hu).
    cbn [run responses]. rewrite Hout.
    change ([envelope] ++ responses E rest (state_of (invoke E clk i m)))
      with (envelope :: responses E rest (state_of (invoke E clk i m))).
    unfold failures in *.
    split; [simpl; lia|]. split; [simpl length; lia|]. split; [simpl length; lia|].
    destruct (is_failure envelope) eqn:Hfl.
    + rewrite (filter_cons_True _ envelope) by done.
      rewrite (filter_cons_True _ (clk, i)) by by apply Hfail.
      simpl length. repeat split; [lia | lia | congruence].
    + rewrite (filter_cons_False _ envelope) by (rewrite Hfl; done).
      repeat split; [lia | | congruence].
      destruct (is_extract_text (clk, i)) eqn:Hx.
      * rewrite (filter_cons_True _ (clk, i)) by done. simpl length. lia.
      * rewrite (filter_cons_False _ (clk, i)) by (rewrite Hx; done). lia.
Qed.

(** X15. [lastRequest] is overwritten, not accumulated: after a sequence of
    calls it is the time that the last call read, and it is what it was when
    there was no call. *)
Theorem last_request_is_latest (E : engine) (calls : list (clock * invocation))
    (m : metrics) :
  lastRequest (run E calls m)
  = match last calls with
    | Some call => Some (t_request call.1)
    | None => lastRequest m
    end.
Proof.
  revert m. induction calls as [|[clk i] rest IH]; intros m; [done|].
  cbn [run]. rewrite IH.
  destruct (invoke_accounts E clk i m) as (_ & _ & _ & _ & _ & _ & _ & Hlast).
  destruct rest as [|call rest]; [by rewrite Hlast|].
  rewrite last_cons_cons.
  destruct (last (call :: rest)) eqn:Hl; [done|]. by apply last_None in Hl.
Qed.

(** X16. A snapshot taken at or after the start of a fresh collector, after
    any sequence of tool calls, reports as many requests as there were calls,
    and an [uptimeSeconds] that is the number of whole seconds since the
    start: it is not negative and it is within one second of the elapsed
    time. Taking the snapshot changes nothing. *)
Theorem snapshot_after_calls (E : engine) (calls : list (clock * invocation))
    (start now : Z) (mem usage : json) :
  (start <= now)%Z →
  let m := run E calls (fresh start) in
  let snap := getMetrics now mem usage m in
  spread snap = m
  ∧ requests (spread snap) = N.of_nat (length calls)
  ∧ (0 <= uptimeSeconds snap)%Z
  ∧ (1000 * uptimeSeconds snap <= now - start < 1000 * uptimeSeconds snap + 1000)%Z.
Proof.
  intros Hle m snap.
  destruct (run_requests E calls (fresh start)) as (Hreq & Hup).
  subst snap m. unfold getMetrics. simpl. rewrite Hup. simpl in *.
  split; [done|]. split; [by rewrite Hreq|].
  pose proof (Z.div_mod (now - start) 1000 ltac:(lia)) as Hdm.
  pose proof (Z.mod_pos_bound (now - start) 1000 ltac:(lia)) as Hb.
  split; [apply Z.div_pos; lia | lia].
Qed.

(** X16 on a run of the sample sessions and tools. *)
Lemma snapshot_after_calls_witness :
  (1000 <= 4500)%Z
  ∧ uptimeSeconds (getMetrics 4500 JNull JNull
                     (run engine0 [(clock0, Call_screen_capture)] (fresh 1000))) = 3%Z
  ∧ requests (run engine0 [(clock0, Call_screen_capture)] (fresh 1000)) = 1%N.
Proof.
  assert (Hle : (1000 <= 4500)%Z) by lia.
  split; [exact Hle|].
  destruct (snapshot_after_calls engine0 [(clock0, Call_screen_capture)] 1000 4500
              JNull JNull Hle) as (_ & Hreq & _ & _).
  split; [reflexivity | exact Hreq].
Defined.

(** ** Text measures of [extract_text] *)

Lemma trimStart_blank (s : jsstring) :
  forallb isWhiteSpace s = true → trimStart s = [].
Proof.
  induction s as [|c r IH]; simpl; [done|].
  destruct (isWhiteSpace c); [exact IH | done].
Qed.

Lemma trim_blank (s : jsstring) : forallb isWhiteSpace s = true → trim s = [].
Proof. intros Hs. unfold trim, trimEnd. by rewrite (trimStart_blank s Hs). Qed.

Lemma word_starts_le (b : bool) (s : jsstring) : word_starts b s ≤ length s.
Proof.
  revert b. induction s as [|c r IH]; intros b; simpl; [lia|].
  destruct (isWhiteSpace c).
  - specialize (IH true). lia.
  - specialize (IH false). destruct b; lia.
Qed.

Lemma wordCount_zero (s : jsstring) : wordCount (trim s) = 0 ↔ trim s = [].
Proof.
  rewrite wordCount_spec. unfold count_words_spec. split; [|by intros ->].
  pose proof (trim_head s) as Hh.
  destruct (trim s) as [|c r]; [done|]. simpl.
  rewrite (Hh c eq_refl). lia.
Qed.

(** X17. In a success envelope of [extract_text], [textLength] is the length
    of [text], [wordCount] is at most [textLength] and is zero only for the
    empty text; an engine text that is all white space gives the empty text
    with both measures zero. *)
Theorem extract_text_measures (E : engine) (clk : clock) (imageData : jsstring)
    (m : metrics) (d : ocr_data) :
  base64Data_of imageData ≠ [] →
  recognize E (Buffer_from_base64 E (base64Data_of imageData)) = inr d →
  ∃ envelope words,
    outcome_of (extract_text E clk imageData m) = inr envelope
    ∧ get_field (js "text") envelope = JStr (trim (text d))
    ∧ get_field (js "textLength") (get_field (js "metadata") envelope)
      = num_nat (length (trim (text d)))
    ∧ get_field (js "wordCount") (get_field (js "metadata") envelope) = num_nat words
    ∧ words ≤ length (trim (text d))
    ∧ (words = 0 ↔ trim (text d) = [])
    ∧ (forallb isWhiteSpace (text d) = true → trim (text d) = [] ∧ words = 0).
Proof.
  intros Hne Hrec. run_comp.
  destruct (base64Data_of imageData) as [|a b] eqn:Hb; [done|].
  simpl. rewrite Hrec. simpl.
  eexists _, (wordCount (trim (text d))). split; [reflexivity|].
  split; [reflexivity|]. split; [reflexivity|]. split; [reflexivity|].
  split; [rewrite wordCount_spec; apply word_starts_le|].
  split; [apply wordCount_zero|].
  intros Hblank. rewrite (trim_blank _ Hblank). done.
Qed.

(** X17 on a run of the sample sessions and tools. *)
Lemma extract_text_measures_witness :
  base64Data_of (js "AAAA") ≠ []
  ∧ ∃ envelope,
      outcome_of (extract_text engine0 clock0 (js "AAAA") (fresh 0)) = inr envelope
      ∧ get_field (js "textLength") (get_field (js "metadata") envelope) = num_nat 12.
Proof.
  assert (Hne : base64Data_of (js "AAAA") ≠ []) by (by vm_compute).
  split; [exact Hne|].
  destruct (extract_text_measures engine0 clock0 (js "AAAA") (fresh 0)
              {| text := js " HELLO  world "; confidence := 87 |} Hne eq_refl)
    as (envelope & words & Hout & _ & Hlen & _).
  exists envelope. split; [exact Hout | exact Hlen].
Defined.

(** ** The tool [log_activity] *)

Lemma js_inj (a b : string) : js a = js b → a = b.
Proof.
  revert b. induction a as [|x a IH]; intros [|y b]; simpl; try done.
  intros [= Hxy Hab]. f_equal; [|by apply IH].
  rewrite <- (ascii_N_embedding x), <- (ascii_N_embedding y). by rewrite Hxy.
Qed.

Lemma activity_id_inj (t t' : Z) : activity_id t = activity_id t' → t = t'.
Proof.
  unfold activity_id. intros Heq%app_inv_head%js_inj.
  apply DecimalZ.to_int_inj.
  assert (Hnorm : ∀ z, Z.to_int z ≠ Decimal.Pos Decimal.Nil
                       ∧ Z.to_int z ≠ Decimal.Neg Decimal.Nil).
  { intros [|p|p]; simpl; split; try discriminate;
      intros [= Hp]; by apply DecimalPos.Unsigned.to_uint_nonnil in Hp. }
  destruct (Hnorm t) as [Hp Hn]. destruct (Hnorm t') as [Hp' Hn'].
  pose proof (NilZero.isi _ Hp Hn) as H1. pose proof (NilZero.isi _ Hp' Hn') as H2.
  rewrite Heq in H1. congruence.
Qed.

(** X18. [log_activity] returns what it is given: the entry has the
    description and the three numbers of the call (the handler does not
    clamp or round them), [logged_at] is the time stamp of the entry,
    [activity_id] is the id of the entry, and the id determines the
    millisecond that it was made in, so two calls share an id exactly when
    they read the same [Date.now()]. The call raises the request and the
    activity counters by one, never the error counter, and calls no
    engine. *)
Theorem log_activity_echoes (clk : clock) (description : jsstring) (c l p : Q)
    (m : metrics) :
  ∃ envelope entry,
    log_activity clk description (Some c) (Some l) (Some p) m
    = (updateLastRequest (t_request clk) (increment ActivityLogs (increment Requests m)),
       [], inr envelope)
    ∧ get_field (js "entry") envelope = entry
    ∧ get_field (js "description") entry = JStr description
    ∧ get_field (js "confidence") entry = JNum c
    ∧ get_field (js "screen_text_length") entry = JNum l
    ∧ get_field (js "processing_time") entry = JNum p
    ∧ get_field (js "logged_at") envelope = get_field (js "timestamp") entry
    ∧ get_field (js "activity_id") envelope = get_field (js "id") entry
    ∧ get_field (js "id") entry = JStr (activity_id (t_done clk))
    ∧ (∀ clk', activity_id (t_done clk) = activity_id (t_done clk') ↔
               t_done clk = t_done clk').
Proof.
  eexists _, _. split; [reflexivity|]. split; [reflexivity|].
  repeat (split; [reflexivity|]).
  intros clk'. split; [apply activity_id_inj | by intros ->].
Qed.

(** ** The compiled build against the source *)

(** X19. The compiled build's [extract_text] calls the engine on the same
    buffer as the source's and returns the same envelope whenever that is a
    success; on a failure it returns the source's envelope without its
    [timestamp], so a failure of the compiled build carries [success] and
    [error] only. *)
Theorem dist_extract_text_agrees (E : engine) (clk : clock) (imageData : jsstring)
    (m : metrics) :
  trace_of (Dist.extract_text E clk imageData tt)
    = trace_of (Tools.extract_text E clk imageData m)
  ∧ ∃ envelope,
      outcome_of (Tools.extract_text E clk imageData m) = inr envelope
      ∧ outcome_of (Dist.extract_text E clk imageData tt)
        = inr (if is_failure envelope
               then Dist.remove_field (js "timestamp") envelope
               else envelope)
      ∧ (is_failure envelope = true →
         has_field (js "timestamp")
           (Dist.remove_field (js "timestamp") envelope) = false).
Proof.
  unfold Dist.extract_text. run_comp.
  destruct (truthy_string (base64Data_of imageData)); simpl.
  - destruct (recognize E _) as [e|d]; simpl.
    + split; [done|]. eexists. split; [reflexivity|]. eval_failure. cbv iota.
      split; [|done]. by vm_compute.
    + split; [done|]. eexists. split; [reflexivity|]. eval_failure. cbv iota.
      split; [reflexivity|]. intros [=].
  - split; [done|]. eexists. split; [reflexivity|]. eval_failure. cbv iota.
    split; [|done]. by vm_compute.
Qed.

(** X20. The compiled build's [log_activity] returns the envelope of the
    source's, and its [screen_capture] the source's envelope without
    [processingTime]; neither calls the engine. *)
Theorem dist_other_tools_agree (clk : clock) (description : jsstring)
    (c l p : option Q) (m : metrics) :
  outcome_of (Dist.log_activity clk description c l p tt)
    = outcome_of (Tools.log_activity clk description c l p m)
  ∧ trace_of (Dist.log_activity clk description c l p tt) = []
  ∧ (∃ envelope,
       outcome_of (Tools.screen_capture clk m) = inr envelope
       ∧ outcome_of (Dist.screen_capture clk tt)
         = inr (Dist.remove_field (js "processingTime") envelope))
  ∧ trace_of (Dist.screen_capture clk tt) = []
  ∧ trace_of (Tools.screen_capture clk m) = [].
Proof.
  split; [reflexivity|]. split; [reflexivity|]. split; [|done].
  eexists. split; [reflexivity|]. by vm_compute.
Qed.

(** ** Logger, start-up and shutdown of the tool server *)

(** X21. The log levels are thresholds: a level that lets [debug] lines
    through lets [info] lines through, one that lets [info] through lets
    [warn] through, and [error] lines are always written. A level that is
    none of [debug], [info] and [warn] (upper case included) silences
    everything but errors, and with [LOG_LEVEL] unset or empty the level is
    [info]: everything but [debug] is written. *)
Theorem logger_levels (level : jsstring) (env : environment) :
  (logger_writes level Log_debug = true → logger_writes level Log_info = true)
  ∧ (logger_writes level Log_info = true → logger_writes level Log_warn = true)
  ∧ logger_writes level Log_error = true
  ∧ (level ∉ [js "debug"; js "info"; js "warn"] →
     ∀ m, logger_writes level m = true → m = Log_error)
  ∧ (LOG_LEVEL env = None ∨ LOG_LEVEL env = Some [] →
     ∀ m, logger_writes (logLevel (read_config env)) m = true ↔ m ≠ Log_debug).
Proof.
  split; [|split; [|split; [done|split]]].
  - unfold logger_writes. rewrite !bool_decide_eq_true. intros Hin. by_cases Hin.
  - unfold logger_writes. rewrite !bool_decide_eq_true. intros Hin. by_cases Hin.
  - intros Hno m. destruct m; simpl; try done; rewrite bool_decide_eq_true; intros Hin;
      exfalso; apply Hno; by_cases Hin.
  - intros Hlvl m.
    assert (Hinfo : logLevel (read_config env) = js "info").
    { unfold read_config. simpl. by destruct Hlvl as [-> | ->]. }
    rewrite Hinfo. by destruct m.
Qed.

Lemma main_cases (cfg : config) :
  (transport cfg = js "stdio" ∧ main cfg = Start_stdio)
  ∨ (transport cfg = js "http" ∧ main cfg = Start_http)
  ∨ (transport cfg = js "streamable-http" ∧ main cfg = Start_http)
  ∨ ((transport cfg ∉ [js "stdio"; js "http"; js "streamable-http"])
     ∧ main cfg = Exit_1).
Proof.
  unfold main.
  destruct (decide (transport cfg = js "stdio")) as [H1|H1]; [by left|].
  destruct (decide (transport cfg = js "http")) as [H2|H2]; [right; by left|].
  destruct (decide (transport cfg = js "streamable-http")) as [H3|H3];
    [right; right; by left|].
  right; right; right. split; [|done]. intros Hx. by_cases Hx.
Qed.

(** X22. The transport is the command-line argument when that is not empty,
    else [MCP_TRANSPORT] when that is not empty, else [stdio]. [main] starts
    the stdio server for [stdio], the HTTP server for [http] and for
    [streamable-http], and for every other word, upper-case spellings
    included, it starts nothing and exits with status 1. *)
Theorem transport_selection (env : environment) :
  (∀ a rest, argv2 env = Some (a :: rest) → transport (read_config env) = a :: rest)
  ∧ (argv2 env = None ∨ argv2 env = Some [] →
     (∀ a rest, MCP_TRANSPORT env = Some (a :: rest) →
                transport (read_config env) = a :: rest)
     ∧ (MCP_TRANSPORT env = None ∨ MCP_TRANSPORT env = Some [] →
        main (read_config env) = Start_stdio))
  ∧ (main (read_config env) = Start_stdio ↔ transport (read_config env) = js "stdio")
  ∧ (main (read_config env) = Start_http ↔
     transport (read_config env) = js "http"
     ∨ transport (read_config env) = js "streamable-http")
  ∧ (main (read_config env) = Exit_1 ↔
     transport (read_config env) ∉ [js "stdio"; js "http"; js "streamable-http"]).
Proof.
  split; [|split; [|split; [|split]]].
  - intros a rest Ha. unfold read_config. simpl. by rewrite Ha.
  - intros Harg. split.
    + intros a rest He. unfold read_config. simpl.
      destruct Harg as [-> | ->]; by rewrite He.
    + intros Henv. unfold main, read_config. simpl.
      by destruct Harg as [-> | ->], Henv as [-> | ->].
  - destruct (main_cases (read_config env)) as [[Ht ->]|[[Ht ->]|[[Ht ->]|[Hn ->]]]];
      rewrite ?Ht; split; try done; intros Heq; try (by vm_compute in Heq).
    exfalso. apply Hn. rewrite Heq. in_list.
  - destruct (main_cases (read_config env)) as [[Ht ->]|[[Ht ->]|[[Ht ->]|[Hn ->]]]];
      rewrite ?Ht; split; try done; try (intros _; by eauto).
    + intros [Heq|Heq]; by vm_compute in Heq.
    + intros [Heq|Heq]; exfalso; apply Hn; rewrite Heq; in_list.
  - destruct (main_cases (read_config env)) as [[Ht ->]|[[Ht ->]|[[Ht ->]|[Hn ->]]]];
      rewrite ?Ht; split; try done; intros Hin; exfalso; apply Hin; in_list.
Qed.

(** X23. The exit status of [shutdown] is 0 exactly when no shutdown was in
    progress and either no HTTP server is set or its [close] called back
    before the timer, with or without an error; it is 1 otherwise. The
    server is closed at most once: a shutdown requested while one is in
    progress exits at once with status 1 and closes nothing. *)
Theorem shutdown_exit_status (k : coordinator) (r r' : close_result) :
  (∃ code, last (shutdown k r).2 = Some (Process_exit code)
     ∧ (code = 0%Z ↔
        isShuttingDown k = false
        ∧ (httpServer k = false ∨ r = Closed_clean ∨ r = Closed_with_error))
     ∧ (code = 0%Z ∨ code = 1%Z))
  ∧ (Server_close ∈ (shutdown k r).2 ↔ isShuttingDown k = false ∧ httpServer k = true)
  ∧ isShuttingDown (shutdown k r).1 = true
  ∧ shutdown (shutdown k r).1 r' = ((shutdown k r).1, [Process_exit 1]).
Proof.
  unfold shutdown. destruct k as [[|] [|]]; simpl.
  - split; [exists 1%Z; split; [done|]; split; [|by right]; split; [done|by intros [[=] _]]|].
    split; [|done]. split; [intros Hin; emitted_exit Hin | by intros [[=] _]].
  - split; [exists 1%Z; split; [done|]; split; [|by right]; split; [done|by intros [[=] _]]|].
    split; [|done]. split; [intros Hin; emitted_exit Hin | by intros [[=] _]].
  - destruct r; simpl.
    + split; [exists 0%Z; split; [done|]; split; [|by left]; split; [|done]; intros _;
              split; [done|]; right; by left|].
      split; [|done]. split; [done|]. intros _. apply list_elem_of_here.
    + split; [exists 0%Z; split; [done|]; split; [|by left]; split; [|done]; intros _;
              split; [done|]; right; by right|].
      split; [|done]. split; [done|]. intros _. apply list_elem_of_here.
    + split; [exists 1%Z; split; [done|]; split; [|by right]; split; [done|];
              intros [_ [[=]|[[=]|[=]]]]|].
      split; [|done]. split; [done|]. intros _. apply list_elem_of_here.
    + split; [exists 1%Z; split; [done|]; split; [|by right]; split; [done|];
              intros [_ [[=]|[[=]|[=]]]]|].
      split; [|done]. split; [done|]. intros _. apply list_elem_of_here.
  - split; [exists 0%Z; split; [done|]; split; [|by left]; split; [|done]; intros _;
            split; [done|]; by left|].
    split; [|done]. split; [intros Hin; emitted_exit Hin | by intros [_ [=]]].
Qed.
